(** * Spaced-repetition core of the study platform (app.py)

    A shallow embedding of [app.py]: the SQLite store with its three
    tables, the scheduler [get_next_question_for_user], the review
    updater [update_srs], the account functions, the authoring,
    administration and evaluation pages as functions of what their
    widgets report, and the statistics.  The properties of the design
    specification come first, each settled against these definitions;
    further properties read off the code follow. *)

From Stdlib Require Import Ascii.
From stdpp Require Import gmap strings list fin_maps.

Open Scope Z_scope.

(** ** Python values the core relies on *)

(** The only exception the core can meet: [OverflowError], raised by
    [datetime] arithmetic and by the [sqlite3] parameter binding. *)
Inductive exn : Type :=
  | OverflowError.

(** What a call does: it returns a value or it raises. *)
Inductive outcome (A : Type) : Type :=
  | Return (a : A)
  | Raise (e : exn).
Arguments Return {A} a.
Arguments Raise {A} e.

#[global] Instance outcome_ret : MRet outcome := λ A a, Return a.

#[global] Instance outcome_bind : MBind outcome := λ A B k m,
  match m with
  | Return a => k a
  | Raise e => Raise e
  end.

(** Calendar dates are kept as proleptic Gregorian ordinals
    ([date.toordinal()]): 0001-01-01 is 1 and [date.max], 9999-12-31,
    is 3652059.  The store receives a date as its ISO text
    [YYYY-MM-DD], whose byte order is the order of the ordinals, so
    [due_date <= ?] in SQL is [≤] on ordinals. *)
Module datetime.

Definition MAXORDINAL : Z := 3652059.
Definition MAX_DELTA_DAYS : Z := 999999999.

Definition valid_date (d : Z) : Prop := 1 ≤ d ≤ MAXORDINAL.

(** [datetime.timedelta(days=n)] *)
Definition timedelta (days : Z) : outcome Z :=
  if decide (Z.abs days ≤ MAX_DELTA_DAYS) then Return days
  else Raise OverflowError.

(** [d + delta] on a [date] and a [timedelta] *)
Definition date_add (d delta : Z) : outcome Z :=
  let o := d + delta in
  if decide (0 < o ≤ MAXORDINAL) then Return o else Raise OverflowError.

End datetime.

(** ** The store *)

(** Table [users]: [username] is the primary key. *)
Record User : Type := mkUser {
  password_hash : string;
  role : string
}.

(** Table [questions]: [id] is the primary key. *)
Record Question : Type := mkQuestion {
  owner_username : string;
  enunciado : string;
  opciones : string;
  correcta : string;
  retroalimentacion : string;
  tag_categoria : option string;
  tag_tema : option string
}.

(** Table [progress]: the primary key is [(username, question_id)]; the
    record holds the other four columns. *)
Record Progress : Type := mkProgress {
  due_date : Z;
  interval : Z;
  aciertos : Z;
  fallos : Z
}.

#[global] Instance Progress_eq_dec : EqDecision Progress.
Proof. solve_decision. Defined.

(** The database file.  A primary key admits one row per key, so each
    table is a finite map from its key. *)
Record DB : Type := mkDB {
  users : gmap string User;
  questions : gmap Z Question;
  progress : gmap (string * Z) Progress
}.

Module sqlite3.

(** An open connection: the file as last committed, the rows as this
    connection sees them, and the [foreign_keys] pragma. *)
Record Connection : Type := mkConnection {
  foreign_keys : bool;
  file : DB;
  rows : DB
}.

(** [sqlite3.connect(DB_FILE)].  SQLite opens every connection with
    foreign-key enforcement off; only [PRAGMA foreign_keys = ON],
    issued on that connection, turns it on. *)
Definition connect (f : DB) : Connection :=
  {| foreign_keys := false; file := f; rows := f |}.

Definition pragma_foreign_keys (on : bool) (c : Connection) : Connection :=
  {| foreign_keys := on; file := file c; rows := rows c |}.

Definition with_rows (c : Connection) (r : DB) : Connection :=
  {| foreign_keys := foreign_keys c; file := file c; rows := r |}.

(** [conn.commit()] *)
Definition commit (c : Connection) : Connection :=
  {| foreign_keys := foreign_keys c; file := rows c; rows := rows c |}.

(** [conn.close()]: what was not committed is lost; the file stays. *)
Definition close (c : Connection) : DB := file c.

(** An [int] parameter must fit SQLite's signed 64-bit INTEGER. *)
Definition bind_int (z : Z) : outcome Z :=
  if decide (- 2 ^ 63 ≤ z < 2 ^ 63) then Return z else Raise OverflowError.

(** [ORDER BY RANDOM() LIMIT 1]: the k-th candidate row is keyed with
    the k-th draw of [RANDOM()], and the row with the least key comes
    out first. *)
Fixpoint least_key {A : Type} (best : Z * A) (l : list (Z * A)) : A :=
  match l with
  | [] => best.2
  | kv :: l' =>
      if decide (kv.1 < best.1) then least_key kv l' else least_key best l'
  end.

Definition order_by_random_limit_1 {A : Type}
    (random : nat → Z) (candidates : list A) : option A :=
  match imap (λ k row, (random k, row)) candidates with
  | [] => None
  | kv :: l => Some (least_key kv l)
  end.

End sqlite3.

Import datetime sqlite3.

(** ** The statements of the core, one definition per SQL text *)

(** [SELECT * FROM progress WHERE username = ? AND question_id = ?] *)
Definition select_progress (c : Connection) (username : string) (question_id : Z)
    : option Progress :=
  progress (rows c) !! (username, question_id).

(** [INSERT INTO progress (...) VALUES (?, ?, ?, ?, ?, ?)
     ON CONFLICT(username, question_id) DO UPDATE SET due_date = ..,
     interval = .., aciertos = .., fallos = ..] *)
Definition upsert_progress (c : Connection) (username : string) (question_id : Z)
    (new_due_date interval aciertos fallos : Z) : outcome Connection :=
  question_id ← bind_int question_id ;
  interval ← bind_int interval ;
  aciertos ← bind_int aciertos ;
  fallos ← bind_int fallos ;
  Return (with_rows c
    {| users := users (rows c);
       questions := questions (rows c);
       progress :=
         <[(username, question_id) :=
             {| due_date := new_due_date; interval := interval;
                aciertos := aciertos; fallos := fallos |}]>
           (progress (rows c)) |}).

(** [SELECT id FROM questions] *)
Definition select_question_ids (c : Connection) : list Z :=
  (map_to_list (questions (rows c))).*1.

(** The row of [progress] joined to question [q] for [username] is due. *)
Definition due_on (d : DB) (username : string) (today : Z) (q : Z) : Prop :=
  ∃ p, progress d !! (username, q) = Some p ∧ due_date p ≤ today.

#[global] Instance due_on_dec d username today q :
  Decision (due_on d username today q).
Proof.
  unfold due_on.
  destruct (progress d !! (username, q)) as [p|] eqn:E.
  - destruct (decide (due_date p ≤ today)) as [H|H].
    + left. by exists p.
    + right. intros (p' & Hp & Hle). by simplify_eq.
  - right. by intros (p' & Hp & _).
Defined.

(** [SELECT q.id FROM questions q JOIN progress p ON q.id = p.question_id
     WHERE p.username = ? AND p.due_date <= ?] *)
Definition select_due (c : Connection) (username : string) (today : Z) : list Z :=
  filter (due_on (rows c) username today) (select_question_ids c).

(** [SELECT q.id FROM questions q LEFT JOIN progress p
     ON q.id = p.question_id AND p.username = ?
     WHERE p.question_id IS NULL] *)
Definition select_unseen (c : Connection) (username : string) : list Z :=
  filter (λ q, progress (rows c) !! (username, q) = None) (select_question_ids c).

(** [DELETE FROM questions WHERE id = ?].  The schema declares
    [progress.question_id REFERENCES questions(id) ON DELETE CASCADE];
    SQLite carries the cascade out only on a connection whose
    [foreign_keys] pragma is on. *)
Definition delete_question (c : Connection) (id : Z) : Connection :=
  with_rows c
    {| users := users (rows c);
       questions := delete id (questions (rows c));
       progress :=
         if foreign_keys c
         then filter (λ kv, kv.1.2 ≠ id) (progress (rows c))
         else progress (rows c) |}.

(** [DELETE FROM progress WHERE username = ?] *)
Definition delete_progress_of (c : Connection) (username : string) : Connection :=
  with_rows c
    {| users := users (rows c);
       questions := questions (rows c);
       progress := filter (λ kv, kv.1.1 ≠ username) (progress (rows c)) |}.

(** [DELETE FROM users WHERE username = ?] *)
Definition delete_user (c : Connection) (username : string) : Connection :=
  with_rows c
    {| users := delete username (users (rows c));
       questions := questions (rows c);
       progress := progress (rows c) |}.

(** ** The functions of app.py *)

(** [get_db_conn()] (lines 20-24): a fresh connection, no pragma issued. *)
Definition get_db_conn (f : DB) : Connection := connect f.

(** The three difficulty literals the buttons pass (lines 414-422):
    Fácil, Medio, Difícil, that is easy, medium, hard.  A Python [str]
    is kept as its UTF-8 bytes, on which [==] is equality. *)
Definition easy : string := "fácil".
Definition medium : string := "medio".
Definition hard : string := "difícil".

(** [get_next_question_for_user(username, practice_mode=False)]
    (lines 240-284).  [today] is [datetime.date.today()], [random] the draws of SQLite's
    [RANDOM()].  The result pairs the returned value with the database
    file the call leaves behind. *)
Definition get_next_question_for_user (username : string) (practice_mode : bool)
    (today : Z) (random : nat → Z) (f : DB) : option Z * DB :=
  let conn := get_db_conn f in
  if practice_mode then
    let practice_question := order_by_random_limit_1 random (select_question_ids conn) in
    (practice_question, close conn)
  else
    let due_question := order_by_random_limit_1 random (select_due conn username today) in
    match due_question with
    | Some id => (Some id, close conn)
    | None =>
        let new_question := order_by_random_limit_1 random (select_unseen conn username) in
        (new_question, close conn)
    end.

(** The three-branch update of [update_srs] (lines 300-308); any other difficulty falls
    through the [if]/[elif] chain and leaves the three values as they
    were. *)
Definition srs_step (difficulty : string) (interval aciertos fallos : Z) : Z * Z * Z :=
  if decide (difficulty = easy) then (interval * 2 + 7, aciertos + 1, fallos)
  else if decide (difficulty = medium) then (interval + 3, aciertos + 1, fallos)
  else if decide (difficulty = hard) then (1, aciertos, fallos + 1)
  else (interval, aciertos, fallos).

(** [update_srs(username, question_id, difficulty)] (lines 286-323).
    [today] is [datetime.date.today()].  The body has no
    [return] statement, so a completed call evaluates to [None]; the
    value is typed [option Progress] to compare it with a record.  A
    call that raises leaves its connection uncommitted. *)
Definition update_srs (username : string) (question_id : Z) (difficulty : string)
    (today : Z) (f : DB) : outcome (option Progress) * DB :=
  let conn := get_db_conn f in
  let progress := select_progress conn username question_id in
  let '(interval, aciertos, fallos) :=
    match progress with
    | Some p => (interval p, aciertos p, fallos p)
    | None => (1, 0, 0)
    end in
  let '(interval, aciertos, fallos) := srs_step difficulty interval aciertos fallos in
  match
    delta ← timedelta interval ;
    new_due_date ← date_add today delta ;
    upsert_progress conn username question_id new_due_date interval aciertos fallos
  with
  | Raise e => (Raise e, file conn)
  | Return conn => (Return None, close (commit conn))
  end.

(** The Eliminar button of [show_manage_questions_page] (lines 510-514):
    delete, commit, close. *)
Definition delete_question_from_db (id : Z) (f : DB) : DB :=
  let conn := get_db_conn f in
  close (commit (delete_question conn id)).

(** [delete_user_from_db(username)] (lines 111-128): refuses the administrator, else
    deletes the user's progress rows and then the user. *)
Definition delete_user_from_db (username : string) (f : DB) : bool * DB :=
  let conn := get_db_conn f in
  if decide (username = "admin") then (false, close conn)
  else
    let conn := delete_progress_of conn username in
    let conn := delete_user conn username in
    (true, close (commit conn)).

(** ** Vocabulary of the properties *)

(** A question of the table. *)
Definition is_question (f : DB) (q : Z) : Prop := is_Some (questions f !! q).

(** A question of the table whose review record for [username] is due. *)
Definition due_question (f : DB) (username : string) (today : Z) (q : Z) : Prop :=
  is_question f q ∧ due_on f username today q.

(** A question of the table with no review record for [username]. *)
Definition unseen_question (f : DB) (username : string) (q : Z) : Prop :=
  is_question f q ∧ progress f !! (username, q) = None.

(** The state [update_srs] starts from: the interval and the two counts
    of the stored record, or 1, 0, 0 when the pair has none. *)
Definition loaded_state (f : DB) (username : string) (question_id : Z) : Z * Z * Z :=
  match progress f !! (username, question_id) with
  | Some p => (interval p, aciertos p, fallos p)
  | None => (1, 0, 0)
  end.

(** An integer SQLite can store. *)
Definition sqlite_integer (z : Z) : Prop := - 2 ^ 63 ≤ z < 2 ^ 63.

(** The values one upsert can carry on [today]: the due date
    [today + interval] is a calendar date (no later than 9999-12-31) and
    every integer fits the store. *)
Definition storable (today question_id interval aciertos fallos : Z) : Prop :=
  valid_date today ∧ valid_date (today + interval) ∧
  sqlite_integer question_id ∧ sqlite_integer interval ∧
  sqlite_integer aciertos ∧ sqlite_integer fallos.

(** The review record of a pair after a call. *)
Definition persisted {A : Type} (r : A * DB) (username : string) (question_id : Z)
    : option Progress :=
  progress r.2 !! (username, question_id).

(** ** A small store to run the code on *)

(** 2026-11-03 as an ordinal. *)
Definition day_2026_11_03 : Z := 739923.

Definition ana : string := "ana".

Definition sample_question : Question :=
  {| owner_username := "admin";
     enunciado := "Primera pregunta";
     opciones := "A|B|C|D";
     correcta := "A";
     retroalimentacion := "Porque si";
     tag_categoria := Some "Urgencia";
     tag_tema := Some "Triage" |}.

(** One administrator, one user, question 1, and at most one review
    record: that of [ana] for question 1. *)
Definition store_with (p : option Progress) : DB :=
  {| users := {[ "admin" := mkUser "$2b$12$hash0" "admin";
                 "ana" := mkUser "$2b$12$hash1" "user" ]};
     questions := {[ 1 := sample_question ]};
     progress := from_option (λ r, {[ (ana, 1) := r ]}) ∅ p |}.

(** [n] answers with the same difficulty, all given on the same day. *)
Definition answer_times (n : nat) (username : string) (question_id : Z)
    (difficulty : string) (today : Z) (f : DB) : DB :=
  Nat.iter n (λ f, (update_srs username question_id difficulty today f).2) f.

(** The same store with a second question, 2, that nobody has answered. *)
Definition store_two (p : option Progress) : DB :=
  {| users := users (store_with p);
     questions := <[ 2 := sample_question ]> (questions (store_with p));
     progress := progress (store_with p) |}.

(** Draws of [RANDOM()] that favour the candidate at position [n]. *)
Definition favour (n : nat) : nat → Z :=
  λ k, if decide (k = n) then -1 else 0.

(** Range side conditions: unfold the bounds and leave the arithmetic to
    [lia]. *)
Ltac ranges :=
  unfold storable, valid_date, sqlite_integer, MAXORDINAL, MAX_DELTA_DAYS,
    day_2026_11_03 in *;
  lia.

(** ** Accounts: the other statements and functions of app.py *)

(** [INSERT INTO users (username, password_hash, role) VALUES (?, ?, ?)].
    The primary key refuses a second row for a username: [None] is
    [sqlite3.IntegrityError]. *)
Definition insert_user (c : Connection) (username password_hash role : string)
    : option Connection :=
  match users (rows c) !! username with
  | Some _ => None
  | None =>
      Some (with_rows c
        {| users := <[username := mkUser password_hash role]> (users (rows c));
           questions := questions (rows c);
           progress := progress (rows c) |})
  end.

(** [UPDATE users SET password_hash = ? WHERE username = ?] *)
Definition update_password_hash (c : Connection) (new_password_hash username : string)
    : Connection :=
  with_rows c
    {| users := alter (λ u, mkUser new_password_hash (role u)) username (users (rows c));
       questions := questions (rows c);
       progress := progress (rows c) |}.

Definition ADMIN_USER_DEFAULT : string := "admin".

(** [setup_database()] (lines 26-94).  The three [CREATE TABLE IF NOT
    EXISTS] leave existing tables alone and the tag columns are part of
    [Question], so what remains is the default administrator:
    [admin_pass_hash] is what [pwd_context.hash(ADMIN_PASS_DEFAULT)]
    gives when it is called. *)
Definition setup_database (admin_pass_hash : string) (f : DB) : DB :=
  let conn := get_db_conn f in
  let admin := users (rows conn) !! ADMIN_USER_DEFAULT in
  let conn :=
    match admin with
    | Some _ => conn
    | None => default conn (insert_user conn ADMIN_USER_DEFAULT admin_pass_hash "admin")
    end in
  close (commit conn).

(** [get_user_role(username)] (lines 102-109) *)
Definition get_user_role (username : string) (f : DB) : option string :=
  let conn := get_db_conn f in
  let result := users (rows conn) !! username in
  match result with
  | Some u => Some (role u)
  | None => None
  end.

(** What a form shows after it is submitted. *)
Inductive message : Type :=
  | Warning
  | Error
  | Success.

(** The registration form of [show_login_page] once submitted (lines
    163-180).  [hashed_pass] is what [pwd_context.hash(new_password)]
    does inside the [try]: [Some h] when it returns the hash [h],
    [None] when it raises (a password bcrypt refuses, such as one with
    a NUL byte).  Only [sqlite3.IntegrityError] is caught, so a raising
    hash leaves the handler with the exception ([None] as message)
    after the [finally] has closed the connection. *)
Definition show_login_page_register (new_username new_password : string)
    (hashed_pass : option string) (f : DB) : option message * DB :=
  if decide (new_username = "" ∨ new_password = "") then (Some Warning, f)
  else if decide (new_username = "admin") then (Some Error, f)
  else
    let conn := get_db_conn f in
    match hashed_pass with
    | None => (None, close conn)
    | Some hashed_pass =>
        match insert_user conn new_username hashed_pass "user" with
        | Some conn => (Some Success, close (commit conn))
        | None => (Some Error, close conn)
        end
    end.

(** The form of [show_change_password_page] once submitted (lines
    548-570).  [new_password_hash] is what
    [pwd_context.hash(password_new)] does inside the [try]: [Some h]
    when it returns [h], [None] when it raises; [except Exception]
    turns that into the error message, before any connection is
    opened. *)
Definition show_change_password_page_submitted
    (current_user password_new password_confirm : string)
    (new_password_hash : option string) (f : DB) : message * DB :=
  if decide (password_new = "" ∨ password_confirm = "") then (Warning, f)
  else if decide (password_new ≠ password_confirm) then (Error, f)
  else
    match new_password_hash with
    | None => (Error, f)
    | Some new_password_hash =>
        let conn := get_db_conn f in
        let conn := update_password_hash conn new_password_hash current_user in
        (Success, close (commit conn))
    end.

(** The user list of [show_admin_panel] (lines 517-536).  [clicked]
    tells which Eliminar buttons report a click in this run; the first
    deletion that succeeds ends the run ([st.rerun()]). *)
Fixpoint admin_panel_loop (clicked : string → bool) (listed : list string) (f : DB) : DB :=
  match listed with
  | [] => f
  | username :: rest =>
      if decide (username ≠ "admin") then
        if clicked username then
          let '(success, f') := delete_user_from_db username f in
          if success then f' else admin_panel_loop clicked rest f'
        else admin_panel_loop clicked rest f
      else admin_panel_loop clicked rest f
  end.

Definition show_admin_panel (user_role : string) (clicked : string → bool) (f : DB) : DB :=
  if decide (user_role ≠ "admin") then f
  else
    let conn := get_db_conn f in
    admin_panel_loop clicked (map_to_list (users (rows conn))).*1 f.

(** The question list of [show_manage_questions_page] (lines 479-515):
    every question for the administrator, the user's own otherwise. *)
Definition listed_questions (user_role current_user : string) (f : DB) : list Z :=
  let is_admin := bool_decide (user_role = "admin") in
  let conn := get_db_conn f in
  (filter (λ kv, is_admin = true ∨ owner_username kv.2 = current_user)
     (map_to_list (questions (rows conn)))).*1.

(** The first listed question whose Eliminar button reports a click is
    deleted and the run ends. *)
Fixpoint manage_questions_loop (clicked : Z → bool) (preguntas : list Z) (f : DB) : DB :=
  match preguntas with
  | [] => f
  | id :: rest =>
      if clicked id then delete_question_from_db id f
      else manage_questions_loop clicked rest f
  end.

Definition show_manage_questions_page (user_role current_user : string)
    (clicked : Z → bool) (f : DB) : DB :=
  manage_questions_loop clicked (listed_questions user_role current_user f) f.

(** The page router at the end of [main] (lines 623-639). *)
Inductive page : Type :=
  | EvaluationPage
  | CreatePage
  | ManageQuestionsPage
  | StatsPage
  | AdminPanel
  | ChangePasswordPage.

Definition page_functions (key : string) : option page :=
  if decide (key = "evaluacion") then Some EvaluationPage
  else if decide (key = "crear") then Some CreatePage
  else if decide (key = "gestionar") then Some ManageQuestionsPage
  else if decide (key = "estadisticas") then Some StatsPage
  else if decide (key = "admin_users") then Some AdminPanel
  else if decide (key = "change_password") then Some ChangePasswordPage
  else None.

Definition page_to_show (current_page user_role : string) : page :=
  let current_page :=
    if decide (current_page = "admin_users" ∧ user_role ≠ "admin")
    then "evaluacion" else current_page in
  default EvaluationPage (page_functions current_page).

(** ** Questions: authoring, display and statistics *)

(** [sep.join(l)] *)
Fixpoint join (sep : string) (l : list string) : string :=
  match l with
  | [] => ""
  | x :: rest =>
      match rest with
      | [] => x
      | _ :: _ => x +:+ sep +:+ join sep rest
      end
  end.

(** [s.split(c)] for a one-character separator.  The bar is ASCII, so
    splitting the UTF-8 bytes at it is splitting the text at it. *)
Fixpoint split (c : ascii) (s : string) : list string :=
  match s with
  | EmptyString => [""]
  | String a s' =>
      if decide (a = c) then "" :: split c s'
      else
        match split c s' with
        | [] => [String a ""]
        | w :: ws => String a w :: ws
        end
  end.

Definition bar : ascii := "|"%char.

(** The characters of [s] equal to [c], counted. *)
Fixpoint occurrences (c : ascii) (s : string) : nat :=
  match s with
  | EmptyString => 0
  | String a s' => (if decide (a = c) then 1 else 0) + occurrences c s'
  end.

(** The database file together with the row that SQLite keeps in
    [sqlite_sequence] for the AUTOINCREMENT key of [questions]: the
    largest id given out so far, 0 before the first. *)
Record Store : Type := mkStore {
  tables : DB;
  questions_seq : Z
}.

Definition max_rowid (m : gmap Z Question) : Z :=
  foldr Z.max 0 (map_to_list m).*1.

(** [INSERT INTO questions (owner_username, ..., tag_tema) VALUES (...)]
    with [id INTEGER PRIMARY KEY AUTOINCREMENT]: the new id is one more
    than the largest id the table holds or ever gave out; past the
    64-bit range the insert fails ([None]). *)
Definition insert_question (s : Store) (q : Question) : option (Z * Store) :=
  let id := Z.max (questions_seq s) (max_rowid (questions (tables s))) + 1 in
  if decide (id < 2 ^ 63) then
    Some (id,
          {| tables :=
               {| users := users (tables s);
                  questions := <[id := q]> (questions (tables s));
                  progress := progress (tables s) |};
             questions_seq := id |})
  else None.

(** Python truth of a text field and of the category select box. *)
Definition filled (s : string) : bool := bool_decide (s ≠ "").

Definition chosen (o : option string) : bool :=
  match o with
  | Some s => filled s
  | None => false
  end.

(** The form of [show_create_page] once submitted (lines 217-238).  The
    four options are the four text inputs in order and [correcta_idx]
    the radio choice; [None] is a raised exception ([IndexError] for a
    choice outside the list, or the failed insert). *)
Definition show_create_page_submitted (owner enunciado : string)
    (opcion_a opcion_b opcion_c opcion_d : string) (correcta_idx : nat)
    (retroalimentacion : string) (tag_categoria : option string) (tag_tema : string)
    (s : Store) : option (message * Store) :=
  let opciones := [opcion_a; opcion_b; opcion_c; opcion_d] in
  if negb (filled enunciado && filled opcion_a && filled opcion_b && filled opcion_c
           && filled opcion_d && filled retroalimentacion && chosen tag_categoria
           && filled tag_tema)
  then Some (Warning, s)
  else
    let opciones_str := join "|" opciones in
    correcta ← opciones !! correcta_idx ;
    '(_, s') ← insert_question s
      {| owner_username := owner;
         enunciado := enunciado;
         opciones := opciones_str;
         correcta := correcta;
         retroalimentacion := retroalimentacion;
         tag_categoria := tag_categoria;
         tag_tema := Some tag_tema |} ;
    Some (Success, s').

(** What [show_evaluation_page] shows as options (line 386):
    [pregunta['opciones'].split('|')]. *)
Definition shown_options (q : Question) : list string := split bar (opciones q).

(** The Eliminar button on a store that carries the sequence: SQLite
    leaves [sqlite_sequence] as it is on a delete. *)
Definition delete_question_from_store (id : Z) (s : Store) : Store :=
  {| tables := delete_question_from_db id (tables s);
     questions_seq := questions_seq s |}.

(** Every id in use, in [questions] or in [progress], was given out by
    the sequence. *)
Definition ids_given_out (s : Store) : Prop :=
  (∀ q, is_question (tables s) q → 1 ≤ q ≤ questions_seq s)
  ∧ (∀ u q, is_Some (progress (tables s) !! (u, q)) → 1 ≤ q ≤ questions_seq s).

(** The statistics of [show_stats_page] (lines 431-445):
    [SELECT COUNT( * ) FROM questions], and per user
    [COUNT(CASE WHEN interval > 7 THEN 1 END)] over the rows of
    [progress]. *)
Definition total_preguntas_global (f : DB) : nat := size (questions f).

Definition learned_row (username : string) (kv : string * Z * Progress) : Prop :=
  kv.1.1 = username ∧ 7 < interval kv.2.

#[global] Instance learned_row_dec username kv : Decision (learned_row username kv).
Proof. unfold learned_row. apply _. Defined.

Definition aprendidas (f : DB) (username : string) : nat :=
  size (filter (learned_row username) (progress f)).

(** A store with the sample question, whose id the sequence gave out. *)
Definition sample_store : Store :=
  {| tables := store_with None; questions_seq := 1 |}.

(** A review answer on a store that carries the sequence. *)
Definition update_srs_in_store (username : string) (question_id : Z)
    (difficulty : string) (today : Z) (s : Store) : Store :=
  {| tables := (update_srs username question_id difficulty today (tables s)).2;
     questions_seq := questions_seq s |}.

(** The values [update_srs] hands to [timedelta], to the date addition
    and to the upsert are within what each accepts. *)
Definition within_range (today question_id i c w : Z) : Prop :=
  Z.abs i ≤ MAX_DELTA_DAYS ∧ 0 < today + i ≤ MAXORDINAL
  ∧ sqlite_integer question_id ∧ sqlite_integer i
  ∧ sqlite_integer c ∧ sqlite_integer w.

(** The review records of answered questions: an interval of at least a
    day, counts that are not negative, and at least one answer counted. *)
Definition answered_record (p : Progress) : Prop :=
  1 ≤ interval p ∧ 0 ≤ aciertos p ∧ 0 ≤ fallos p ∧ 1 ≤ aciertos p + fallos p.

(** The review record of the pair counts as learned in the ranking. *)
Definition learned (f : DB) (username : string) (question_id : Z) : Prop :=
  ∃ p, progress f !! (username, question_id) = Some p ∧ 7 < interval p.

#[global] Instance learned_dec f username question_id :
  Decision (learned f username question_id).
Proof.
  unfold learned.
  destruct (progress f !! (username, question_id)) as [p|].
  - destruct (decide (7 < interval p)) as [H|H].
    + left. by exists p.
    + right. intros (p' & Hp & Hlt). by simplify_eq.
  - right. by intros (p' & Hp & _).
Defined.

Definition one_if (P : Prop) `{!Decision P} : nat := if decide P then 1%nat else 0%nat.

(** ** The evaluation page *)

(** [pregunta]: the question row as a dict, with its id and with
    [opciones] replaced by the split list (lines 385-386). *)
Record Pregunta : Type := mkPregunta {
  pregunta_id : Z;
  pregunta_row : Question;
  pregunta_opciones : list string
}.

(** The keys of [st.session_state] the page uses.  [None] is an absent
    key; [current_question_id] is read with [.get], for which an absent
    key and a stored [None] are the same, and [user_answer] is read as
    an attribute, for which they differ. *)
Record SessionState : Type := mkSessionState {
  eval_state : option string;
  current_question_id : option Z;
  user_answer : option (option string);
  current_question_data : option Pregunta
}.

(** What the widgets report in one run of the script: at most one
    button or form submission. *)
Inductive widget_event : Type :=
  | NoEvent
  | PracticeClicked
  | AnswerSubmitted (respuesta_usuario : string)
  | DificilClicked
  | MedioClicked
  | FacilClicked.

(** How one run of the page ends. *)
Inductive rendered : Type :=
  | Rerun
  | AllCaughtUp (practice_found_nothing : bool)
  | QuestionShown (pregunta : Pregunta)
  | FeedbackShown (pregunta : Pregunta) (respuesta_usuario : option string)
  | PageRaised
  | NothingShown.

(** [reset_evaluation_state()] (lines 325-331) *)
Definition reset_evaluation_state (ss : SessionState) : SessionState :=
  {| eval_state := Some "showing_question";
     current_question_id := None;
     user_answer := Some None;
     current_question_data := None |}.

(** Python truth of a returned question id: [None] and 0 are false. *)
Definition truthy_id (o : option Z) : bool :=
  match o with
  | Some id => bool_decide (id ≠ 0)
  | None => false
  end.

(** A difficulty button of the feedback view (lines 414-422): the update
    and, when it completes, the reset and the rerun; when it raises,
    the exception leaves the page. *)
Definition difficulty_button (current_user : string) (pregunta : Pregunta)
    (difficulty : string) (today : Z) (ss : SessionState) (f : DB)
    : rendered * SessionState * DB :=
  match update_srs current_user (pregunta_id pregunta) difficulty today f with
  | (Return _, f') => (Rerun, reset_evaluation_state ss, f')
  | (Raise _, f') => (PageRaised, ss, f')
  end.

(** One run of [show_evaluation_page()] (lines 333-422) for the
    logged-in [current_user], up to its end or its [st.rerun()]. *)
Definition show_evaluation_page (event : widget_event) (current_user : string)
    (today : Z) (random : nat → Z) (ss : SessionState) (f : DB)
    : rendered * SessionState * DB :=
  let ss :=
    match eval_state ss with
    | None =>
        {| eval_state := Some "showing_question";
           current_question_id := current_question_id ss;
           user_answer := user_answer ss;
           current_question_data := current_question_data ss |}
    | Some _ => ss
    end in
  if decide (eval_state ss = Some "showing_question") then
    let '(q_id, ss, f) :=
      match current_question_id ss with
      | None =>
          let '(q_id, f) := get_next_question_for_user current_user false today random f in
          (q_id,
           {| eval_state := eval_state ss;
              current_question_id := q_id;
              user_answer := user_answer ss;
              current_question_data := current_question_data ss |},
           f)
      | Some id => (Some id, ss, f)
      end in
    match q_id with
    | None =>
        match event with
        | PracticeClicked =>
            let '(practice_q_id, f) :=
              get_next_question_for_user current_user true today random f in
            if truthy_id practice_q_id then
              (Rerun,
               {| eval_state := Some "showing_question";
                  current_question_id := practice_q_id;
                  user_answer := user_answer ss;
                  current_question_data := current_question_data ss |},
               f)
            else (AllCaughtUp true, ss, f)
        | _ => (AllCaughtUp false, ss, f)
        end
    | Some q_id =>
        match questions f !! q_id with
        | None => (Rerun, reset_evaluation_state ss, f)
        | Some pregunta_row =>
            let pregunta :=
              {| pregunta_id := q_id;
                 pregunta_row := pregunta_row;
                 pregunta_opciones := split bar (opciones pregunta_row) |} in
            let ss :=
              {| eval_state := eval_state ss;
                 current_question_id := current_question_id ss;
                 user_answer := user_answer ss;
                 current_question_data := Some pregunta |} in
            match event with
            | AnswerSubmitted respuesta_usuario =>
                (Rerun,
                 {| eval_state := Some "showing_feedback";
                    current_question_id := current_question_id ss;
                    user_answer := Some (Some respuesta_usuario);
                    current_question_data := current_question_data ss |},
                 f)
            | _ => (QuestionShown pregunta, ss, f)
            end
        end
    end
  else if decide (eval_state ss = Some "showing_feedback") then
    match current_question_data ss, user_answer ss with
    | Some pregunta, Some respuesta_usuario =>
        match event with
        | DificilClicked => difficulty_button current_user pregunta hard today ss f
        | MedioClicked => difficulty_button current_user pregunta medium today ss f
        | FacilClicked => difficulty_button current_user pregunta easy today ss f
        | _ => (FeedbackShown pregunta respuesta_usuario, ss, f)
        end
    | _, _ => (PageRaised, ss, f)
    end
  else (NothingShown, ss, f).

(** The session of a user who has just opened the evaluation page. *)
Definition fresh_session : SessionState :=
  {| eval_state := None; current_question_id := None;
     user_answer := None; current_question_data := None |}.

(** The literal a difficulty button passes to [update_srs]. *)
Definition button_difficulty (event : widget_event) : option string :=
  match event with
  | DificilClicked => Some hard
  | MedioClicked => Some medium
  | FacilClicked => Some easy
  | _ => None
  end.

(** A store in use: question 1 from the sequence and the review record
    of [ana] for it. *)
Definition answered_store : Store :=
  {| tables := store_with (Some {| due_date := day_2026_11_03 + 9; interval := 9;
                                   aciertos := 1; fallos := 0 |});
     questions_seq := 1 |}.

(** One operation of the application on the store: a form or a button of
    one of its pages. *)
Inductive step (s : Store) : Store → Prop :=
  | step_create owner texto a b c d correcta_idx retro categoria tema m s' :
      show_create_page_submitted owner texto a b c d correcta_idx retro
        categoria tema s = Some (m, s') →
      step s s'
  | step_delete_question id :
      step s (delete_question_from_store id s)
  | step_delete_user username :
      step s {| tables := (delete_user_from_db username (tables s)).2;
                questions_seq := questions_seq s |}
  | step_answer username question_id difficulty today :
      step s (update_srs_in_store username question_id difficulty today s)
  | step_register new_username new_password hashed_pass :
      step s {| tables := (show_login_page_register new_username new_password
                             hashed_pass (tables s)).2;
                questions_seq := questions_seq s |}
  | step_change_password current_user password_new password_confirm new_password_hash :
      step s {| tables := (show_change_password_page_submitted current_user
                             password_new password_confirm new_password_hash
                             (tables s)).2;
                questions_seq := questions_seq s |}.

(** ** Reading the store through the statements *)

Section Selection.
Context {A : Type}.
Implicit Types (random : nat → Z) (candidates : list A).

Lemma least_key_elem (best : Z * A) (l : list (Z * A)) :
  least_key best l ∈ (best :: l).*2.
Proof.
  revert best. induction l as [|kv l IH]; intros best; simpl.
  - apply list_elem_of_here.
  - destruct (decide (kv.1 < best.1)).
    + apply list_elem_of_further, IH.
    + specialize (IH best). simpl in IH.
      apply elem_of_cons in IH as [->|IH].
      * apply list_elem_of_here.
      * by do 2 apply list_elem_of_further.
Qed.

Lemma keyed_values random candidates :
  (imap (λ k row, (random k, row)) candidates).*2 = candidates.
Proof.
  rewrite fmap_imap. unfold compose. simpl.
  change (λ (_ : nat) (x : A), x) with (@const (A → A) nat id).
  rewrite imap_const. apply list_fmap_id.
Qed.

Lemma order_by_random_limit_1_elem random candidates x :
  order_by_random_limit_1 random candidates = Some x → x ∈ candidates.
Proof.
  unfold order_by_random_limit_1.
  pose proof (keyed_values random candidates) as Hv.
  destruct (imap _ candidates) as [|kv l]; [done|].
  intros [= <-]. rewrite <- Hv. apply least_key_elem.
Qed.

Lemma order_by_random_limit_1_None random candidates :
  order_by_random_limit_1 random candidates = None ↔ candidates = [].
Proof.
  unfold order_by_random_limit_1.
  destruct candidates as [|a l]; simpl; [done|].
  split; intros; discriminate.
Qed.

Lemma order_by_random_limit_1_Some random candidates :
  candidates ≠ [] →
  ∃ x, order_by_random_limit_1 random candidates = Some x ∧ x ∈ candidates.
Proof.
  intros Hne.
  destruct (order_by_random_limit_1 random candidates) as [x|] eqn:E.
  - exists x. split; [done|]. by eapply order_by_random_limit_1_elem.
  - by apply order_by_random_limit_1_None in E.
Qed.

Lemma least_key_keep (best : Z * A) (l : list (Z * A)) :
  (∀ kv, kv ∈ l → best.1 ≤ kv.1) → least_key best l = best.2.
Proof.
  revert best. induction l as [|kv l IH]; intros best Hall; simpl; [done|].
  rewrite decide_False.
  - apply IH. intros kv' Hin. apply Hall. by apply list_elem_of_further.
  - pose proof (Hall kv (list_elem_of_here _ _)). lia.
Qed.

Lemma least_key_strict_min (best : Z * A) (l : list (Z * A)) n k x :
  l !! n = Some (k, x) →
  k < best.1 →
  (∀ m kv, l !! m = Some kv → m ≠ n → k < kv.1) →
  least_key best l = x.
Proof.
  revert best n. induction l as [|kv l IH]; intros best n Hn Hlt Hothers; [done|].
  destruct n as [|n]; simpl in *.
  - injection Hn as ->. rewrite decide_True by done.
    apply least_key_keep. intros kv' Hin.
    apply list_elem_of_lookup in Hin as [m Hm].
    pose proof (Hothers (S m) kv' Hm). simpl in *. lia.
  - assert (k < kv.1) as Hkv by (by apply (Hothers 0%nat kv)).
    assert (∀ m kv', l !! m = Some kv' → m ≠ n → k < kv'.1) as Hrest.
    { intros m kv' Hm Hne. apply (Hothers (S m) kv' Hm). lia. }
    destruct (decide (kv.1 < best.1)); by eapply IH.
Qed.

(** The choice is not first-match: every candidate comes out for some
    draws of [RANDOM()]. *)
Lemma order_by_random_limit_1_any candidates n x :
  candidates !! n = Some x →
  order_by_random_limit_1 (favour n) candidates = Some x.
Proof.
  intros Hn. unfold order_by_random_limit_1.
  assert (∀ m kv, imap (λ k row, (favour n k, row)) candidates !! m = Some kv →
                  kv.1 = favour n m ∧ candidates !! m = Some kv.2) as Hkeys.
  { intros m kv. rewrite list_lookup_imap.
    destruct (candidates !! m); simpl; [|done]. by intros [= <-]. }
  assert (imap (λ k row, (favour n k, row)) candidates !! n = Some (-1, x)) as Hx.
  { rewrite list_lookup_imap, Hn. simpl. unfold favour. by rewrite decide_True. }
  destruct (imap _ candidates) as [|kv l]; [done|].
  f_equal. destruct n as [|n]; simpl in Hx.
  - injection Hx as ->. apply least_key_keep. intros kv' Hin.
    apply list_elem_of_lookup in Hin as [m Hm].
    destruct (Hkeys (S m) kv' Hm) as [-> _]. unfold favour. simpl.
    destruct (decide (S m = 0%nat)); lia.
  - apply (least_key_strict_min kv l n (-1) x Hx).
    + destruct (Hkeys 0%nat kv eq_refl) as [-> _]. unfold favour.
      rewrite decide_False by done. lia.
    + intros m kv' Hm Hne. destruct (Hkeys (S m) kv' Hm) as [-> _].
      unfold favour. rewrite decide_False by lia. lia.
Qed.

End Selection.

Lemma elem_of_select_question_ids (f : DB) (q : Z) :
  q ∈ select_question_ids (get_db_conn f) ↔ is_question f q.
Proof.
  unfold select_question_ids, get_db_conn, connect, is_question. simpl.
  rewrite list_elem_of_fmap. split.
  - intros ([q' x] & -> & Hin). apply elem_of_map_to_list in Hin. by exists x.
  - intros [x Hx]. exists (q, x). split; [done|]. by apply elem_of_map_to_list.
Qed.

Lemma select_question_ids_nil (f : DB) :
  select_question_ids (get_db_conn f) = [] ↔ questions f = ∅.
Proof.
  unfold select_question_ids, get_db_conn, connect. simpl. split.
  - intros H. apply fmap_nil_inv in H. by apply map_to_list_empty_iff.
  - intros ->. by rewrite map_to_list_empty.
Qed.

Lemma elem_of_select_due (f : DB) (username : string) (today q : Z) :
  q ∈ select_due (get_db_conn f) username today ↔ due_question f username today q.
Proof.
  unfold select_due, due_question.
  rewrite list_elem_of_filter, elem_of_select_question_ids. simpl. tauto.
Qed.

Lemma elem_of_select_unseen (f : DB) (username : string) (q : Z) :
  q ∈ select_unseen (get_db_conn f) username ↔ unseen_question f username q.
Proof.
  unfold select_unseen, unseen_question.
  rewrite list_elem_of_filter, elem_of_select_question_ids. simpl. tauto.
Qed.

Lemma nil_iff_no_elem {A : Type} (l : list A) : l = [] ↔ ¬ ∃ x, x ∈ l.
Proof.
  destruct l as [|a l]; split; try done.
  - intros _ [x Hx]. by apply elem_of_nil in Hx.
  - intros H. exfalso. apply H. exists a. apply list_elem_of_here.
Qed.

(** ** The scheduler *)

Lemma get_next_question_for_user_practice username today random f :
  (get_next_question_for_user username true today random f).1
  = order_by_random_limit_1 random (select_question_ids (get_db_conn f)).
Proof. reflexivity. Qed.

Lemma get_next_question_for_user_standard username today random f :
  (get_next_question_for_user username false today random f).1
  = match order_by_random_limit_1 random (select_due (get_db_conn f) username today) with
    | Some id => Some id
    | None => order_by_random_limit_1 random (select_unseen (get_db_conn f) username)
    end.
Proof.
  unfold get_next_question_for_user.
  by destruct (order_by_random_limit_1 random (select_due _ _ _)).
Qed.

(** C2, as the code has it. In standard mode the scheduler returns a
    question of the table whose review record for the user is due
    whenever such a question exists; failing that, a question of the
    table with no review record for the user whenever one exists;
    failing both, nothing.  A due review record whose question is no
    longer in the table does not count: the due query joins the question
    table.  So with a due question and an unseen one both present, the
    answer is due and is not unseen. *)
Theorem standard_mode_priority (username : string) (today : Z)
    (random : nat → Z) (f : DB) :
  let r := (get_next_question_for_user username false today random f).1 in
  ((∃ q, due_question f username today q) →
     ∃ q, r = Some q ∧ due_question f username today q
          ∧ ¬ unseen_question f username q)
  ∧ ((¬ ∃ q, due_question f username today q) →
     (∃ q, unseen_question f username q) →
     ∃ q, r = Some q ∧ unseen_question f username q)
  ∧ ((¬ ∃ q, due_question f username today q) →
     (¬ ∃ q, unseen_question f username q) →
     r = None).
Proof.
  intros r. subst r. rewrite get_next_question_for_user_standard.
  split; [|split].
  - intros [q0 Hq0].
    destruct (order_by_random_limit_1_Some random
                (select_due (get_db_conn f) username today)) as (q & -> & Hq).
    { intros Hnil. apply nil_iff_no_elem in Hnil. apply Hnil.
      exists q0. by apply elem_of_select_due. }
    apply elem_of_select_due in Hq.
    exists q. split; [done|]. split; [done|].
    intros [_ Hnone]. destruct Hq as [_ (p & Hp & _)]. congruence.
  - intros Hnodue [q0 Hq0].
    assert (select_due (get_db_conn f) username today = []) as ->.
    { apply nil_iff_no_elem. intros [q Hq]. apply Hnodue.
      exists q. by apply elem_of_select_due. }
    simpl.
    destruct (order_by_random_limit_1_Some random
                (select_unseen (get_db_conn f) username)) as (q & -> & Hq).
    { intros Hnil. apply nil_iff_no_elem in Hnil. apply Hnil.
      exists q0. by apply elem_of_select_unseen. }
    exists q. split; [done|]. by apply elem_of_select_unseen.
  - intros Hnodue Hnounseen.
    assert (select_due (get_db_conn f) username today = []) as ->.
    { apply nil_iff_no_elem. intros [q Hq]. apply Hnodue.
      exists q. by apply elem_of_select_due. }
    assert (select_unseen (get_db_conn f) username = []) as ->.
    { apply nil_iff_no_elem. intros [q Hq]. apply Hnounseen.
      exists q. by apply elem_of_select_unseen. }
    reflexivity.
Qed.

(** C2, as stated, fails.  Question 1 was deleted with the Eliminar
    button and its review record stayed: the user has a due review
    record, question 2 is unseen, and the scheduler returns question 2,
    an unseen one, whatever the draws. *)
Lemma standard_mode_orphan_due_record :
  let due := {| due_date := day_2026_11_03; interval := 1; aciertos := 0; fallos := 1 |} in
  let f := delete_question_from_db 1 (store_two (Some due)) in
  progress f !! (ana, 1) = Some due
  ∧ due_date due ≤ day_2026_11_03
  ∧ unseen_question f ana 2
  ∧ ¬ due_on f ana day_2026_11_03 2
  ∧ ∀ random,
      (get_next_question_for_user ana false day_2026_11_03 random f).1 = Some 2.
Proof.
  split_and!.
  - vm_compute. reflexivity.
  - vm_compute. discriminate.
  - split; [by eexists|]. vm_compute. reflexivity.
  - intros (p & Hp & _). vm_compute in Hp. discriminate.
  - intros random. vm_compute. reflexivity.
Qed.

(** C8. In practice mode the scheduler returns a question of the table
    whenever the table is not empty, whatever the review records are,
    and returns nothing exactly when the table is empty. *)
Theorem practice_mode_member (username : string) (today : Z)
    (random : nat → Z) (f : DB) :
  let r := (get_next_question_for_user username true today random f).1 in
  (r = None ↔ questions f = ∅)
  ∧ (questions f ≠ ∅ → ∃ q, r = Some q ∧ is_question f q)
  ∧ (∀ f', questions f' = questions f →
       (get_next_question_for_user username true today random f').1 = r).
Proof.
  intros r. subst r. rewrite get_next_question_for_user_practice.
  split; [|split].
  - rewrite order_by_random_limit_1_None. apply select_question_ids_nil.
  - intros Hne.
    destruct (order_by_random_limit_1_Some random
                (select_question_ids (get_db_conn f))) as (q & -> & Hq).
    { by rewrite select_question_ids_nil. }
    exists q. split; [done|]. by apply elem_of_select_question_ids.
  - intros f' Hf'. rewrite get_next_question_for_user_practice.
    unfold select_question_ids, get_db_conn, connect. simpl. by rewrite Hf'.
Qed.

(** C9. The scheduler is read-only: in either mode the database file
    after the call is the file before it (users, questions and review
    records alike), so a second call with the same random draws gives
    the same answer. *)
Theorem scheduler_read_only (username : string) (practice_mode : bool)
    (today : Z) (random : nat → Z) (f : DB) :
  (get_next_question_for_user username practice_mode today random f).2 = f
  ∧ get_next_question_for_user username practice_mode today random
      (get_next_question_for_user username practice_mode today random f).2
    = get_next_question_for_user username practice_mode today random f.
Proof.
  assert ((get_next_question_for_user username practice_mode today random f).2 = f)
    as Hsame.
  { unfold get_next_question_for_user.
    destruct practice_mode; [done|].
    by destruct (order_by_random_limit_1 random (select_due _ _ _)). }
  split; [done|]. by rewrite Hsame.
Qed.

(** C10. Practice-mode selection does not depend on the caller: for a
    fixed store and fixed random draws any two users get the same
    answer, chosen among the same candidates, which are the identifiers
    of the question table and nothing else. *)
Theorem practice_mode_user_independent (u1 u2 : string) (today1 today2 : Z)
    (random : nat → Z) (f : DB) :
  get_next_question_for_user u1 true today1 random f
  = get_next_question_for_user u2 true today2 random f
  ∧ (get_next_question_for_user u1 true today1 random f).1
    = order_by_random_limit_1 random (map_to_list (questions f)).*1.
Proof. split; reflexivity. Qed.

(** ** The review updater *)

(** The file a completed upsert leaves behind. *)
Lemma update_srs_unfold username question_id difficulty today f :
  update_srs username question_id difficulty today f
  = let '(i, c, w) := loaded_state f username question_id in
    let '(i', c', w') := srs_step difficulty i c w in
    match
      delta ← timedelta i' ;
      new_due_date ← date_add today delta ;
      upsert_progress (get_db_conn f) username question_id new_due_date i' c' w'
    with
    | Raise e => (Raise e, f)
    | Return conn => (Return None, rows conn)
    end.
Proof.
  unfold update_srs, loaded_state, select_progress. simpl.
  destruct (progress f !! (username, question_id)) as [p|];
    destruct (srs_step _ _ _ _) as [[i' c'] w']; reflexivity.
Qed.

Lemma timedelta_Return days :
  Z.abs days ≤ MAX_DELTA_DAYS → timedelta days = Return days.
Proof. intros H. unfold timedelta. by rewrite decide_True. Qed.

Lemma date_add_Return d delta :
  valid_date (d + delta) → date_add d delta = Return (d + delta).
Proof.
  intros [H1 H2]. unfold date_add. simpl. rewrite decide_True; [done|lia].
Qed.

Lemma bind_int_Return z : sqlite_integer z → bind_int z = Return z.
Proof. intros H. unfold bind_int. by rewrite decide_True. Qed.

Lemma bind_int_inv z z' : bind_int z = Return z' → z' = z.
Proof. unfold bind_int. by case_decide; intros [= <-]. Qed.

Lemma update_srs_storable {username question_id difficulty today f i c w i' c' w'} :
  loaded_state f username question_id = (i, c, w) →
  srs_step difficulty i c w = (i', c', w') →
  storable today question_id i' c' w' →
  update_srs username question_id difficulty today f
  = (Return None,
     {| users := users f;
        questions := questions f;
        progress :=
          <[(username, question_id) :=
              {| due_date := today + i'; interval := i';
                 aciertos := c'; fallos := w' |}]> (progress f) |}).
Proof.
  intros Hload Hstep (Htoday & Hdue & Hq & Hi & Hc & Hw).
  rewrite update_srs_unfold, Hload, Hstep.
  rewrite timedelta_Return.
  2:{ unfold valid_date, MAXORDINAL, MAX_DELTA_DAYS in *. lia. }
  simpl. rewrite date_add_Return by done. simpl.
  unfold upsert_progress.
  rewrite (bind_int_Return question_id) by done. simpl.
  rewrite (bind_int_Return i') by done. simpl.
  rewrite (bind_int_Return c') by done. simpl.
  rewrite (bind_int_Return w') by done. simpl.
  reflexivity.
Qed.

Lemma persisted_update_srs_storable
    {username question_id difficulty today f i c w i' c' w'} :
  loaded_state f username question_id = (i, c, w) →
  srs_step difficulty i c w = (i', c', w') →
  storable today question_id i' c' w' →
  persisted (update_srs username question_id difficulty today f) username question_id
  = Some {| due_date := today + i'; interval := i'; aciertos := c'; fallos := w' |}.
Proof.
  intros Hload Hstep Hst.
  rewrite (update_srs_storable Hload Hstep Hst).
  unfold persisted. simpl. apply lookup_insert_eq.
Qed.

(** A call that raises has written nothing. *)
Lemma update_srs_raise_keeps_file username question_id difficulty today f e f' :
  update_srs username question_id difficulty today f = (Raise e, f') → f' = f.
Proof.
  rewrite update_srs_unfold.
  destruct (loaded_state _ _ _) as [[i c] w].
  destruct (srs_step _ _ _ _) as [[i' c'] w'].
  destruct (_ ≫= _); intros [= <-]; congruence.
Qed.

Lemma srs_step_easy i c w : srs_step easy i c w = (i * 2 + 7, c + 1, w).
Proof. reflexivity. Qed.

Lemma srs_step_medium i c w : srs_step medium i c w = (i + 3, c + 1, w).
Proof. reflexivity. Qed.

Lemma srs_step_hard i c w : srs_step hard i c w = (1, c, w + 1).
Proof. reflexivity. Qed.

Lemma srs_step_other difficulty i c w :
  difficulty ≠ easy → difficulty ≠ medium → difficulty ≠ hard →
  srs_step difficulty i c w = (i, c, w).
Proof.
  intros H1 H2 H3. unfold srs_step.
  by rewrite !decide_False.
Qed.

Lemma storable_sample (i c w : Z) :
  0 ≤ i ≤ 1000 → 0 ≤ c ≤ 1000 → 0 ≤ w ≤ 1000 →
  storable day_2026_11_03 1 i c w.
Proof. ranges. Defined.

(** C1, as the code has it. For each of the three difficulties and every
    loaded or defaulted state (i, c, w) with i ≥ 1, provided the new
    values are storable (the new due date is no later than 9999-12-31
    and every integer fits the store), the persisted record is exactly:
    easy, interval i*2+7, correct c+1, incorrect w; medium, interval
    i+3, correct c+1, incorrect w; hard, interval 1, correct c,
    incorrect w+1; and the due date is today plus the new interval. *)
Theorem update_srs_table (username : string) (question_id today : Z) (f : DB)
    (i c w : Z) :
  loaded_state f username question_id = (i, c, w) →
  1 ≤ i →
  (storable today question_id (i * 2 + 7) (c + 1) w →
     persisted (update_srs username question_id easy today f) username question_id
     = Some {| due_date := today + (i * 2 + 7); interval := i * 2 + 7;
               aciertos := c + 1; fallos := w |})
  ∧ (storable today question_id (i + 3) (c + 1) w →
     persisted (update_srs username question_id medium today f) username question_id
     = Some {| due_date := today + (i + 3); interval := i + 3;
               aciertos := c + 1; fallos := w |})
  ∧ (storable today question_id 1 c (w + 1) →
     persisted (update_srs username question_id hard today f) username question_id
     = Some {| due_date := today + 1; interval := 1;
               aciertos := c; fallos := w + 1 |}).
Proof.
  intros Hload _. repeat split; intros Hst.
  - by apply (persisted_update_srs_storable Hload (srs_step_easy i c w)).
  - by apply (persisted_update_srs_storable Hload (srs_step_medium i c w)).
  - by apply (persisted_update_srs_storable Hload (srs_step_hard i c w)).
Qed.

Lemma update_srs_table_first_answers :
  persisted (update_srs ana 1 easy day_2026_11_03 (store_with None)) ana 1
  = Some {| due_date := day_2026_11_03 + 9; interval := 9; aciertos := 1; fallos := 0 |}
  ∧ persisted (update_srs ana 1 medium day_2026_11_03 (store_with None)) ana 1
  = Some {| due_date := day_2026_11_03 + 4; interval := 4; aciertos := 1; fallos := 0 |}
  ∧ persisted (update_srs ana 1 hard day_2026_11_03 (store_with None)) ana 1
  = Some {| due_date := day_2026_11_03 + 1; interval := 1; aciertos := 0; fallos := 1 |}.
Proof.
  destruct (update_srs_table ana 1 day_2026_11_03 (store_with None) 1 0 0)
    as (He & Hm & Hh); [reflexivity | lia |].
  split; [|split].
  - apply He, storable_sample; lia.
  - apply Hm, storable_sample; lia.
  - apply Hh, storable_sample; lia.
Defined.

(** C1, as stated, fails.  After eighteen easy answers the stored
    interval is 2097145; the nineteenth easy answer asks for a due date
    after 9999-12-31, [datetime] raises, and the record keeps interval
    2097145 instead of 2097145*2+7.  Likewise a count at the top of the
    64-bit range cannot grow. *)
Lemma update_srs_table_overflow :
  let f := answer_times 18 ana 1 easy day_2026_11_03 (store_with None) in
  let g := store_with (Some {| due_date := day_2026_11_03; interval := 1;
                               aciertos := 2 ^ 63 - 1; fallos := 0 |}) in
  (loaded_state f ana 1 = (2097145, 18, 0)
   ∧ 1 ≤ 2097145
   ∧ update_srs ana 1 easy day_2026_11_03 f = (Raise OverflowError, f)
   ∧ persisted (update_srs ana 1 easy day_2026_11_03 f) ana 1
     ≠ Some {| due_date := day_2026_11_03 + (2097145 * 2 + 7);
               interval := 2097145 * 2 + 7; aciertos := 18 + 1; fallos := 0 |})
  ∧ (loaded_state g ana 1 = (1, 2 ^ 63 - 1, 0)
     ∧ persisted (update_srs ana 1 easy day_2026_11_03 g) ana 1
       ≠ Some {| due_date := day_2026_11_03 + (1 * 2 + 7);
                 interval := 1 * 2 + 7; aciertos := (2 ^ 63 - 1) + 1; fallos := 0 |}).
Proof.
  vm_compute. repeat split; try done; intros [=].
Qed.

(** C3, as the code has it. A difficulty outside the three literals is
    not rejected: the call completes, keeps the interval and both counts
    of the loaded or defaulted state, and upserts the record with the
    due date set to today plus that interval (inserting the record when
    the pair had none). *)
Theorem update_srs_other_difficulty (username : string) (question_id : Z)
    (difficulty : string) (today : Z) (f : DB) (i c w : Z) :
  difficulty ≠ easy → difficulty ≠ medium → difficulty ≠ hard →
  loaded_state f username question_id = (i, c, w) →
  storable today question_id i c w →
  (update_srs username question_id difficulty today f).1 = Return None
  ∧ persisted (update_srs username question_id difficulty today f) username question_id
    = Some {| due_date := today + i; interval := i; aciertos := c; fallos := w |}.
Proof.
  intros H1 H2 H3 Hload Hst.
  pose proof (srs_step_other difficulty i c w H1 H2 H3) as Hstep.
  split.
  - by rewrite (update_srs_storable Hload Hstep Hst).
  - by apply (persisted_update_srs_storable Hload Hstep).
Qed.

Lemma update_srs_other_difficulty_sample :
  persisted
    (update_srs ana 1 "imposible" day_2026_11_03
       (store_with (Some {| due_date := day_2026_11_03 + 30; interval := 5;
                            aciertos := 2; fallos := 1 |}))) ana 1
  = Some {| due_date := day_2026_11_03 + 5; interval := 5; aciertos := 2; fallos := 1 |}.
Proof.
  apply (update_srs_other_difficulty ana 1 "imposible" day_2026_11_03
           (store_with (Some {| due_date := day_2026_11_03 + 30; interval := 5;
                                aciertos := 2; fallos := 1 |})) 5 2 1).
  - discriminate.
  - discriminate.
  - discriminate.
  - reflexivity.
  - apply storable_sample; lia.
Defined.

(** C3, as stated, fails.  With a difficulty that is none of the three
    literals the call is not rejected and the stored record changes: its
    due date moves from 30 days ahead to 5 days ahead.  For a pair
    without a record, a record is inserted. *)
Lemma update_srs_other_difficulty_mutates :
  let before := {| due_date := day_2026_11_03 + 30; interval := 5;
                   aciertos := 2; fallos := 1 |} in
  let f := store_with (Some before) in
  "imposible" ≠ easy ∧ "imposible" ≠ medium ∧ "imposible" ≠ hard
  ∧ progress f !! (ana, 1) = Some before
  ∧ (update_srs ana 1 "imposible" day_2026_11_03 f).1 = Return None
  ∧ persisted (update_srs ana 1 "imposible" day_2026_11_03 f) ana 1
    ≠ progress f !! (ana, 1)
  ∧ progress (store_with None) !! (ana, 1) = None
  ∧ persisted (update_srs ana 1 "imposible" day_2026_11_03 (store_with None)) ana 1
    ≠ progress (store_with None) !! (ana, 1).
Proof.
  vm_compute. repeat split; try done; intros [=].
Qed.

(** C5, as the code has it. Two easy answers in a row for the same pair,
    each with storable new values, add one to the correct count each
    time (two in total), and the second interval is computed from the
    interval the first call persisted: from (i, c, w) the record becomes
    (i*2+7, c+1, w) and then ((i*2+7)*2+7, c+2, w); from interval 1 that
    is 9 and then 25. *)
Theorem update_srs_easy_twice (username : string) (question_id : Z)
    (today1 today2 : Z) (f : DB) (i c w : Z) :
  loaded_state f username question_id = (i, c, w) →
  storable today1 question_id (i * 2 + 7) (c + 1) w →
  storable today2 question_id ((i * 2 + 7) * 2 + 7) (c + 2) w →
  let r1 := update_srs username question_id easy today1 f in
  let r2 := update_srs username question_id easy today2 r1.2 in
  persisted r1 username question_id
  = Some {| due_date := today1 + (i * 2 + 7); interval := i * 2 + 7;
            aciertos := c + 1; fallos := w |}
  ∧ persisted r2 username question_id
    = Some {| due_date := today2 + ((i * 2 + 7) * 2 + 7);
              interval := (i * 2 + 7) * 2 + 7;
              aciertos := c + 2; fallos := w |}
  ∧ (i = 1 →
     interval <$> persisted r1 username question_id = Some 9
     ∧ interval <$> persisted r2 username question_id = Some 25).
Proof.
  intros Hload Hst1 Hst2 r1 r2.
  assert (persisted r1 username question_id
          = Some {| due_date := today1 + (i * 2 + 7); interval := i * 2 + 7;
                    aciertos := c + 1; fallos := w |}) as Hr1.
  { by apply (persisted_update_srs_storable Hload
                (srs_step_easy i c w)). }
  assert (loaded_state r1.2 username question_id = (i * 2 + 7, c + 1, w)) as Hload1.
  { unfold loaded_state. unfold persisted in Hr1. by rewrite Hr1. }
  assert (persisted r2 username question_id
          = Some {| due_date := today2 + ((i * 2 + 7) * 2 + 7);
                    interval := (i * 2 + 7) * 2 + 7;
                    aciertos := c + 2; fallos := w |}) as Hr2.
  { subst r2.
    rewrite (persisted_update_srs_storable Hload1
               (srs_step_easy _ _ _)).
    - do 2 f_equal. lia.
    - by replace (c + 1 + 1) with (c + 2) by lia. }
  split; [done|]. split; [done|].
  intros ->. by rewrite Hr1, Hr2.
Qed.

Lemma update_srs_easy_twice_first :
  let r1 := update_srs ana 1 easy day_2026_11_03 (store_with None) in
  let r2 := update_srs ana 1 easy day_2026_11_03 r1.2 in
  interval <$> persisted r1 ana 1 = Some 9
  ∧ interval <$> persisted r2 ana 1 = Some 25.
Proof.
  destruct (update_srs_easy_twice ana 1 day_2026_11_03 day_2026_11_03
              (store_with None) 1 0 0) as (_ & _ & H).
  - reflexivity.
  - apply storable_sample; lia.
  - apply storable_sample; lia.
  - by apply H.
Defined.

(** C5, as stated, fails.  After seventeen easy answers the interval is
    1048569.  The next easy answer persists 2097145 and count 18; the
    one after it asks for a due date after 9999-12-31 and raises, so the
    two calls add one to the count, not two, and the interval does not
    become 2097145*2+7. *)
Lemma update_srs_easy_twice_overflow :
  let f := answer_times 17 ana 1 easy day_2026_11_03 (store_with None) in
  let r1 := update_srs ana 1 easy day_2026_11_03 f in
  let r2 := update_srs ana 1 easy day_2026_11_03 r1.2 in
  loaded_state f ana 1 = (1048569, 17, 0)
  ∧ interval <$> persisted r1 ana 1 = Some 2097145
  ∧ r2.1 = Raise OverflowError
  ∧ aciertos <$> persisted r2 ana 1 ≠ Some (17 + 2)
  ∧ interval <$> persisted r2 ana 1 ≠ Some (2097145 * 2 + 7).
Proof.
  vm_compute. repeat split; try done; intros [=].
Qed.

(** C6. For a pair with no review record the update starts from interval
    1 and counts 0, 0 and inserts a record for the pair, leaving the
    other records as they are: the first easy answer stores interval 9,
    the first medium one 4, the first hard one 1.  The clock is taken at
    least nine days before 9999-12-31 and the identifier is an SQLite
    integer. *)
Theorem update_srs_first_review (username : string) (question_id today : Z) (f : DB) :
  progress f !! (username, question_id) = None →
  valid_date today → today + 9 ≤ MAXORDINAL → sqlite_integer question_id →
  loaded_state f username question_id = (1, 0, 0)
  ∧ progress (update_srs username question_id easy today f).2
    = <[(username, question_id) :=
          {| due_date := today + 9; interval := 9; aciertos := 1; fallos := 0 |}]>
        (progress f)
  ∧ progress (update_srs username question_id medium today f).2
    = <[(username, question_id) :=
          {| due_date := today + 4; interval := 4; aciertos := 1; fallos := 0 |}]>
        (progress f)
  ∧ progress (update_srs username question_id hard today f).2
    = <[(username, question_id) :=
          {| due_date := today + 1; interval := 1; aciertos := 0; fallos := 1 |}]>
        (progress f).
Proof.
  intros Hnone Htoday Hmax Hq.
  assert (loaded_state f username question_id = (1, 0, 0)) as Hload.
  { unfold loaded_state. by rewrite Hnone. }
  assert (∀ i c w, 1 ≤ i ≤ 9 → 0 ≤ c ≤ 1 → 0 ≤ w ≤ 1 →
                   storable today question_id i c w) as Hst.
  { intros i c w Hi Hc Hw. ranges. }
  split; [done|]. split; [|split].
  - rewrite (update_srs_storable Hload (srs_step_easy 1 0 0));
      [done|]. apply Hst; lia.
  - rewrite (update_srs_storable Hload (srs_step_medium 1 0 0));
      [done|]. apply Hst; lia.
  - rewrite (update_srs_storable Hload (srs_step_hard 1 0 0));
      [done|]. apply Hst; lia.
Qed.

Lemma update_srs_first_review_sample :
  progress (update_srs ana 1 easy day_2026_11_03 (store_with None)).2 !! (ana, 1)
  = Some {| due_date := day_2026_11_03 + 9; interval := 9; aciertos := 1; fallos := 0 |}.
Proof.
  destruct (update_srs_first_review ana 1 day_2026_11_03 (store_with None))
    as (_ & He & _).
  - reflexivity.
  - ranges.
  - ranges.
  - ranges.
  - rewrite He. apply lookup_insert_eq.
Defined.

(** C7, as the code has it. For each of the three difficulties, with
    storable new values, the call returns nothing ([None]); the updated
    record, with the new due date, the new interval and the updated
    counts, is what the store holds for the pair afterwards. *)
Theorem update_srs_returns_none (username : string) (question_id : Z)
    (difficulty : string) (today : Z) (f : DB) (i c w i' c' w' : Z) :
  difficulty = easy ∨ difficulty = medium ∨ difficulty = hard →
  loaded_state f username question_id = (i, c, w) →
  srs_step difficulty i c w = (i', c', w') →
  storable today question_id i' c' w' →
  (update_srs username question_id difficulty today f).1 = Return None
  ∧ persisted (update_srs username question_id difficulty today f) username question_id
    = Some {| due_date := today + i'; interval := i'; aciertos := c'; fallos := w' |}.
Proof.
  intros _ Hload Hstep Hst. split.
  - by rewrite (update_srs_storable Hload Hstep Hst).
  - by apply (persisted_update_srs_storable Hload Hstep).
Qed.

Lemma update_srs_returns_none_sample :
  (update_srs ana 1 medium day_2026_11_03 (store_with None)).1 = Return None.
Proof.
  apply (update_srs_returns_none ana 1 medium day_2026_11_03 (store_with None)
           1 0 0 4 1 0).
  - right. left. reflexivity.
  - reflexivity.
  - reflexivity.
  - apply storable_sample; lia.
Defined.

(** C7, as stated, fails.  A first easy answer stores the updated record
    and the call itself evaluates to [None], not to that record. *)
Lemma update_srs_does_not_return_record :
  let r := update_srs ana 1 easy day_2026_11_03 (store_with None) in
  persisted r ana 1
  = Some {| due_date := day_2026_11_03 + 9; interval := 9; aciertos := 1; fallos := 0 |}
  ∧ r.1 = Return None
  ∧ r.1 ≠ Return (persisted r ana 1).
Proof.
  vm_compute. repeat split; try done; intros [=].
Qed.

(** ** Deleting questions and users *)

(** The cascade declared in the schema, on a connection that enforces
    foreign keys: no review record of the deleted question is left. *)
Lemma delete_question_cascades_when_enforced (c : Connection) (id : Z) (username : string) :
  foreign_keys c = true →
  progress (rows (delete_question c id)) !! (username, id) = None.
Proof.
  intros Hfk. unfold delete_question. simpl. rewrite Hfk.
  apply map_lookup_filter_None. right. intros p _. simpl. tauto.
Qed.

(** [delete_user_from_db] deletes the user's review records itself. *)
Lemma delete_user_from_db_removes_progress (username : string) (q : Z) (f : DB) :
  username ≠ "admin" →
  progress (delete_user_from_db username f).2 !! (username, q) = None.
Proof.
  intros Hne. unfold delete_user_from_db. rewrite decide_False by done. simpl.
  apply map_lookup_filter_None. right. intros p _. simpl. tauto.
Qed.

(** The Eliminar button works on a connection from [get_db_conn], which
    never turns the pragma on: the question goes, the review records
    stay. *)
Lemma delete_question_from_db_progress (id : Z) (f : DB) :
  questions (delete_question_from_db id f) = delete id (questions f)
  ∧ progress (delete_question_from_db id f) = progress f.
Proof. split; reflexivity. Qed.

(** C4. Deleting a question is meant to remove every review record that
    references it.  On the code it does not: after question 1 is deleted
    through the Eliminar button, question 1 is gone and the review
    record of [ana] for question 1 is still stored, so a record
    references a question that no longer exists. *)
Theorem delete_question_orphans_record :
  let r := {| due_date := day_2026_11_03 + 9; interval := 9;
              aciertos := 1; fallos := 0 |} in
  let f := store_with (Some r) in
  let f' := delete_question_from_db 1 f in
  is_question f 1
  ∧ ¬ is_question f' 1
  ∧ progress f' !! (ana, 1) = Some r.
Proof.
  vm_compute. repeat split; try done.
  - by eexists.
  - by intros [x [=]].
Qed.

(** ** Invariant of the stored interval *)

(** Whatever the difficulty, an interval of at least one day stays at
    least one day. *)
Lemma srs_step_interval_positive (difficulty : string) (i c w : Z) :
  1 ≤ i → 1 ≤ (srs_step difficulty i c w).1.1.
Proof.
  intros Hi. unfold srs_step.
  repeat case_decide; simpl; lia.
Qed.

Lemma update_srs_interval_positive username question_id difficulty today f u q p :
  (∀ u q p, progress f !! (u, q) = Some p → 1 ≤ interval p) →
  progress (update_srs username question_id difficulty today f).2 !! (u, q) = Some p →
  1 ≤ interval p.
Proof.
  intros Hinv. rewrite update_srs_unfold.
  pose proof (srs_step_interval_positive difficulty
                (loaded_state f username question_id).1.1
                (loaded_state f username question_id).1.2
                (loaded_state f username question_id).2) as Hstep.
  assert (1 ≤ (loaded_state f username question_id).1.1) as Hi.
  { unfold loaded_state.
    destruct (progress f !! (username, question_id)) as [p0|] eqn:E; simpl; [|lia].
    by apply (Hinv username question_id). }
  specialize (Hstep Hi).
  destruct (loaded_state f username question_id) as [[i c] w]. simpl in *.
  destruct (srs_step difficulty i c w) as [[i' c'] w']. simpl in *.
  destruct (timedelta i') as [delta|e] eqn:Ed; simpl; [|by apply Hinv].
  assert (delta = i') as ->.
  { unfold timedelta in Ed. by case_decide; simplify_eq. }
  destruct (date_add today i') as [due|e]; simpl; [|by apply Hinv].
  unfold upsert_progress.
  destruct (bind_int question_id) as [z|e] eqn:E1; simpl; [|by apply Hinv].
  apply bind_int_inv in E1 as ->.
  destruct (bind_int i') as [z|e] eqn:E2; simpl; [|by apply Hinv].
  apply bind_int_inv in E2 as ->.
  destruct (bind_int c') as [z|e] eqn:E3; simpl; [|by apply Hinv].
  destruct (bind_int w') as [z'|e] eqn:E4; simpl; [|by apply Hinv].
  destruct (decide ((username, question_id) = (u, q))) as [[= -> ->]|Hne].
  - rewrite lookup_insert_eq. by intros [= <-].
  - rewrite lookup_insert_ne by done. apply Hinv.
Qed.

(** ** Scenarios of the specification, run on the code *)

(** A fresh user and one unseen question: the scheduler offers it.
    After a hard answer the record has interval 1 and is due tomorrow;
    the same day nothing is offered, the next day the question is. *)
Example scenario_fresh_user :
  let f0 := store_with None in
  let f1 := (update_srs ana 1 hard day_2026_11_03 f0).2 in
  (get_next_question_for_user ana false day_2026_11_03 (favour 0) f0).1 = Some 1
  ∧ progress f1 !! (ana, 1)
    = Some {| due_date := day_2026_11_03 + 1; interval := 1; aciertos := 0; fallos := 1 |}
  ∧ (get_next_question_for_user ana false day_2026_11_03 (favour 0) f1).1 = None
  ∧ (get_next_question_for_user ana false (day_2026_11_03 + 1) (favour 0) f1).1 = Some 1.
Proof. vm_compute. done. Qed.

(** A due question and an unseen one: the due one wins whatever the
    draws; practice mode reaches both. *)
Example scenario_priority :
  let f := store_two (Some {| due_date := day_2026_11_03; interval := 1;
                              aciertos := 0; fallos := 1 |}) in
  (get_next_question_for_user ana false day_2026_11_03 (favour 0) f).1 = Some 1
  ∧ (get_next_question_for_user ana false day_2026_11_03 (favour 1) f).1 = Some 1
  ∧ (get_next_question_for_user ana true day_2026_11_03 (favour 0) f).1 = Some 2
  ∧ (get_next_question_for_user ana true day_2026_11_03 (favour 1) f).1 = Some 1.
Proof. vm_compute. done. Qed.

(** The record orphaned by a deleted question is never offered: the due
    query joins the question table. *)
Example scenario_orphan_skipped :
  let f := delete_question_from_db 1
             (store_with (Some {| due_date := day_2026_11_03; interval := 1;
                                  aciertos := 0; fallos := 1 |})) in
  (get_next_question_for_user ana false day_2026_11_03 (favour 0) f).1 = None
  ∧ (get_next_question_for_user ana true day_2026_11_03 (favour 0) f).1 = None.
Proof. vm_compute. done. Qed.

(** ** Accounts *)

Lemma delete_user_from_db_frame (username : string) (f : DB) :
  (∀ u, u ≠ username → users (delete_user_from_db username f).2 !! u = users f !! u)
  ∧ questions (delete_user_from_db username f).2 = questions f.
Proof.
  unfold delete_user_from_db.
  destruct (decide (username = "admin")); simpl; [done|].
  split; [|done]. intros u Hu. by apply lookup_delete_ne.
Qed.

(** X1. [delete_user_from_db] refuses the administrator and leaves the
    store as it was; for any other name it reports success, and
    afterwards the user is gone together with every review record of
    theirs, while the other users, the other users' records and all
    questions (also those the user wrote) are untouched. *)
Theorem delete_user_from_db_effect (username : string) (f : DB) :
  let r := delete_user_from_db username f in
  (username = "admin" → r = (false, f))
  ∧ (username ≠ "admin" →
       r.1 = true
       ∧ users r.2 !! username = None
       ∧ ∀ q, progress r.2 !! (username, q) = None)
  ∧ (∀ u, u ≠ username → users r.2 !! u = users f !! u)
  ∧ (∀ u q, u ≠ username → progress r.2 !! (u, q) = progress f !! (u, q))
  ∧ questions r.2 = questions f.
Proof.
  intros r. subst r. unfold delete_user_from_db.
  destruct (decide (username = "admin")) as [Heq|Hne]; simpl.
  - split_and!; done.
  - split_and!; try done.
    + intros _. split_and!; [done|apply lookup_delete_eq|].
      intros q. apply map_lookup_filter_None. right. intros p _. simpl. tauto.
    + intros u Hu. by apply lookup_delete_ne.
    + intros u q Hu.
      destruct (progress f !! (u, q)) as [p|] eqn:E.
      * apply map_lookup_filter_Some. by split.
      * apply map_lookup_filter_None. by left.
Qed.

(** X2. [setup_database] makes sure an administrator exists and touches
    nothing else: a store that has the [admin] row is returned as it
    is (so a changed administrator password survives a restart), a
    store without it gains the row with role [admin]; questions, review
    records and the other users stay, and running it again changes
    nothing. *)
Theorem setup_database_admin (h h' : string) (f : DB) :
  is_Some (users (setup_database h f) !! "admin")
  ∧ (is_Some (users f !! "admin") → setup_database h f = f)
  ∧ (users f !! "admin" = None →
       users (setup_database h f) !! "admin" = Some (mkUser h "admin")
       ∧ get_user_role "admin" (setup_database h f) = Some "admin")
  ∧ (∀ u, u ≠ "admin" → users (setup_database h f) !! u = users f !! u)
  ∧ questions (setup_database h f) = questions f
  ∧ progress (setup_database h f) = progress f
  ∧ setup_database h' (setup_database h f) = setup_database h f.
Proof.
  assert (∀ g, is_Some (users g !! "admin") → ∀ k, setup_database k g = g) as Hkeep.
  { intros g [x Hx] k. unfold setup_database, get_db_conn, connect, ADMIN_USER_DEFAULT.
    simpl. rewrite Hx. simpl. by destruct g. }
  assert (users f !! "admin" = None →
          setup_database h f
          = {| users := <["admin" := mkUser h "admin"]> (users f);
               questions := questions f; progress := progress f |}) as Hnew.
  { intros Hx. unfold setup_database, insert_user, get_db_conn, connect,
      ADMIN_USER_DEFAULT. simpl. by rewrite Hx. }
  destruct (users f !! "admin") as [x|] eqn:Hx.
  - assert (is_Some (users f !! "admin")) as Hsome by (by rewrite Hx).
    rewrite !(Hkeep f Hsome). rewrite Hx.
    repeat split; done.
  - rewrite (Hnew eq_refl). simpl.
    split; [rewrite lookup_insert_eq; by eexists|].
    split; [by intros [? ?]|].
    split.
    { intros _. split; [apply lookup_insert_eq|].
      unfold get_user_role, get_db_conn, connect. simpl. by rewrite lookup_insert_eq. }
    split; [intros u Hu; by rewrite lookup_insert_ne|].
    split; [done|]. split; [done|].
    apply Hkeep. simpl. rewrite lookup_insert_eq. by eexists.
Qed.

(** X3. Registration never touches an account that exists, nor the
    questions or the review records; whatever it adds is the submitted
    name, which is not empty and not [admin], with the hash that
    [pwd_context.hash] returned and the role [user], and then the form
    reports success.  Without success, also when the hash raises, the
    store is as before. *)
Theorem register_adds_only_a_user (new_username new_password : string)
    (hashed_pass : option string) (f : DB) :
  let r := show_login_page_register new_username new_password hashed_pass f in
  (∀ u x, users f !! u = Some x → users r.2 !! u = Some x)
  ∧ questions r.2 = questions f
  ∧ progress r.2 = progress f
  ∧ (∀ u x, users r.2 !! u = Some x → users f !! u = None →
       u = new_username ∧ u ≠ "" ∧ u ≠ "admin" ∧ new_password ≠ ""
       ∧ (∃ h, hashed_pass = Some h ∧ x = mkUser h "user")
       ∧ r.1 = Some Success)
  ∧ (r.1 ≠ Some Success → r.2 = f).
Proof.
  intros r. subst r. unfold show_login_page_register.
  destruct (decide (new_username = "" ∨ new_password = "")) as [He|He]; simpl.
  { split_and!; try done. intros u x H1 H2. congruence. }
  destruct (decide (new_username = "admin")) as [Ha|Ha]; simpl.
  { split_and!; try done. intros u x H1 H2. congruence. }
  destruct hashed_pass as [h|]; simpl.
  2:{ split_and!; try done. intros u x H1 H2. congruence. }
  unfold insert_user, get_db_conn, connect. simpl.
  destruct (users f !! new_username) as [y|] eqn:Hy; simpl.
  { split_and!; try done. intros u x H1 H2. congruence. }
  split_and!; try done.
  - intros u x Hu. rewrite lookup_insert_ne; [done|]. congruence.
  - intros u x H1 H2.
    destruct (decide (new_username = u)) as [->|Hne].
    + rewrite lookup_insert_eq in H1. injection H1 as <-.
      split_and!; try done; [tauto|tauto|by exists h].
    + rewrite lookup_insert_ne in H1 by done. congruence.
Qed.

(** X4. For a name that is neither empty nor [admin] and a password that
    is not empty: when [pwd_context.hash] returns a hash, a free name is
    registered (the form reports success and the role read back is
    [user]) and a taken name is refused with the store as before; when
    [pwd_context.hash] raises, nothing is registered, no message is
    shown and the store is as before, whether the name is free or
    not. *)
Theorem register_then_role (new_username new_password : string)
    (hashed_pass : option string) (f : DB) :
  new_username ≠ "" → new_password ≠ "" → new_username ≠ "admin" →
  let r := show_login_page_register new_username new_password hashed_pass f in
  (∀ h, hashed_pass = Some h → users f !! new_username = None →
     r.1 = Some Success
     ∧ users r.2 !! new_username = Some (mkUser h "user")
     ∧ get_user_role new_username r.2 = Some "user")
  ∧ (∀ h, hashed_pass = Some h → is_Some (users f !! new_username) →
     r = (Some Error, f))
  ∧ (hashed_pass = None → r = (None, f)).
Proof.
  intros H1 H2 H3 r. subst r. unfold show_login_page_register.
  rewrite decide_False by tauto. rewrite decide_False by done.
  unfold insert_user, get_user_role, get_db_conn, connect. simpl.
  split_and!.
  - intros h -> ->. simpl. by rewrite lookup_insert_eq.
  - intros h -> [x ->]. done.
  - by intros ->.
Qed.

Lemma register_then_role_sample :
  get_user_role "luis" (show_login_page_register "luis" "secreto" (Some "$2b$12$hash2")
                          (store_with None)).2 = Some "user"
  ∧ show_login_page_register "luis" "secreto" None (store_with None)
    = (None, store_with None).
Proof.
  split.
  - destruct (register_then_role "luis" "secreto" (Some "$2b$12$hash2") (store_with None))
      as [H _]; [discriminate | discriminate | discriminate |].
    apply (H "$2b$12$hash2"); reflexivity.
  - destruct (register_then_role "luis" "secreto" None (store_with None))
      as (_ & _ & H); [discriminate | discriminate | discriminate |].
    by apply H.
Defined.

(** X5. Changing a password rewrites the hash of the logged-in user and
    nothing else: every role, every other user, the questions and the
    review records stay, and no row is created for a name that has
    none.  It succeeds exactly when the two entries are equal and not
    empty and [pwd_context.hash] returns a hash; otherwise, also when
    the hash raises, the store is as before. *)
Theorem change_password_effect
    (current_user password_new password_confirm : string)
    (new_password_hash : option string) (f : DB) :
  let r := show_change_password_page_submitted current_user password_new
             password_confirm new_password_hash f in
  (r.1 = Success
   ↔ password_new ≠ "" ∧ password_new = password_confirm ∧ is_Some new_password_hash)
  ∧ (r.1 ≠ Success → r.2 = f)
  ∧ (new_password_hash = None → r.1 ≠ Success)
  ∧ (r.1 = Success →
       ∃ h, new_password_hash = Some h
            ∧ users r.2 !! current_user
              = (λ u, mkUser h (role u)) <$> users f !! current_user)
  ∧ (∀ u, role <$> users r.2 !! u = role <$> users f !! u)
  ∧ (∀ u, u ≠ current_user → users r.2 !! u = users f !! u)
  ∧ questions r.2 = questions f
  ∧ progress r.2 = progress f.
Proof.
  intros r. subst r. unfold show_change_password_page_submitted.
  destruct (decide (password_new = "" ∨ password_confirm = "")) as [He|He]; simpl.
  { split_and!; try done. split; [done|]. intros (H1 & H2 & _). subst. tauto. }
  destruct (decide (password_new ≠ password_confirm)) as [Hd|Hd]; simpl.
  { split_and!; try done. split; [done|]. tauto. }
  apply dec_stable in Hd.
  destruct new_password_hash as [h|]; simpl.
  2:{ split_and!; try done. split; [done|]. by intros (_ & _ & [? ?]). }
  split_and!; try done.
  - split; [|done]. intros _. split_and!; [tauto|done|by eexists].
  - intros _. exists h. split; [done|]. apply lookup_alter_eq.
  - intros u. destruct (decide (current_user = u)) as [->|Hne].
    + rewrite lookup_alter_eq. by destruct (users f !! u).
    + by rewrite lookup_alter_ne.
  - intros u Hu. by rewrite lookup_alter_ne.
Qed.

(** ** Administration pages *)

Lemma admin_panel_loop_cases (clicked : string → bool) (listed : list string) (f : DB) :
  admin_panel_loop clicked listed f = f
  ∨ ∃ u, u ∈ listed ∧ clicked u = true ∧ u ≠ "admin"
         ∧ admin_panel_loop clicked listed f = (delete_user_from_db u f).2.
Proof.
  induction listed as [|username rest IH]; simpl; [by left|].
  destruct (decide (username ≠ "admin")) as [Hne|Heq].
  - destruct (clicked username) eqn:Hc.
    + right. exists username. split; [apply list_elem_of_here|].
      split; [done|]. split; [done|].
      unfold delete_user_from_db. by rewrite decide_False.
    + destruct IH as [IH|(u & Hin & Hu & Hne' & IH)]; [by left|].
      right. exists u. split; [by apply list_elem_of_further|]. done.
  - destruct IH as [IH|(u & Hin & Hu & Hne' & IH)]; [by left|].
    right. exists u. split; [by apply list_elem_of_further|]. done.
Qed.

(** X6. One run of the user panel either leaves the store as it is or
    deletes exactly one user through [delete_user_from_db]: a user of
    the table whose button was clicked, never [admin], and only when the
    session role is [admin].  The administrator's row is there
    afterwards whatever was clicked. *)
Theorem show_admin_panel_effect (user_role : string) (clicked : string → bool) (f : DB) :
  let f' := show_admin_panel user_role clicked f in
  (f' = f
   ∨ ∃ u, user_role = "admin" ∧ is_Some (users f !! u) ∧ clicked u = true
          ∧ u ≠ "admin" ∧ f' = (delete_user_from_db u f).2)
  ∧ users f' !! "admin" = users f !! "admin"
  ∧ questions f' = questions f.
Proof.
  intros f'. subst f'. unfold show_admin_panel.
  destruct (decide (user_role ≠ "admin")) as [Hne|Heq]; [by split_and!; [left|..]|].
  apply dec_stable in Heq.
  destruct (admin_panel_loop_cases clicked
              (map_to_list (users (rows (get_db_conn f)))).*1 f)
    as [->|(u & Hin & Hu & Hne & ->)]; [by split_and!; [left|..]|].
  pose proof (delete_user_from_db_frame u f) as (Hothers & Hq).
  split_and!.
  - right. exists u. split_and!; try done.
    apply list_elem_of_fmap in Hin as ([u' x] & -> & Hin).
    apply elem_of_map_to_list in Hin. by exists x.
  - by apply Hothers.
  - done.
Qed.

Lemma manage_questions_loop_cases (clicked : Z → bool) (preguntas : list Z) (f : DB) :
  manage_questions_loop clicked preguntas f = f
  ∨ ∃ id, id ∈ preguntas ∧ clicked id = true
          ∧ manage_questions_loop clicked preguntas f = delete_question_from_db id f.
Proof.
  induction preguntas as [|id rest IH]; simpl; [by left|].
  destruct (clicked id) eqn:Hc.
  - right. exists id. split; [apply list_elem_of_here|]. done.
  - destruct IH as [IH|(id' & Hin & Hid & IH)]; [by left|].
    right. exists id'. split; [by apply list_elem_of_further|]. done.
Qed.

(** X7. One run of the question list either leaves the store as it is or
    deletes exactly one question: one of the table whose button was
    clicked, and, unless the session role is [admin], one that the
    logged-in user owns.  Users and review records are never touched
    from this page. *)
Theorem show_manage_questions_page_effect (user_role current_user : string)
    (clicked : Z → bool) (f : DB) :
  let f' := show_manage_questions_page user_role current_user clicked f in
  (f' = f
   ∨ ∃ id q, questions f !! id = Some q ∧ clicked id = true
             ∧ (user_role = "admin" ∨ owner_username q = current_user)
             ∧ f' = delete_question_from_db id f
             ∧ questions f' = delete id (questions f))
  ∧ users f' = users f
  ∧ progress f' = progress f.
Proof.
  intros f'. subst f'. unfold show_manage_questions_page.
  destruct (manage_questions_loop_cases clicked
              (listed_questions user_role current_user f) f)
    as [->|(id & Hin & Hid & ->)]; [by split_and!; [left|..]|].
  split_and!; [|done|done].
  right. unfold listed_questions in Hin.
  apply list_elem_of_fmap in Hin as ([id' q] & -> & Hin).
  apply list_elem_of_filter in Hin as [Hown Hin].
  apply elem_of_map_to_list in Hin. simpl in *.
  exists id', q. split_and!; try done.
  destruct Hown as [Hadm|Hown]; [left|by right].
  by apply bool_decide_eq_true in Hadm.
Qed.

(** X8. The router shows the user panel only to the role [admin]: for
    any other role the page [admin_users] becomes the evaluation page,
    as does any page name the table does not know. *)
Theorem page_to_show_guard (current_page user_role : string) :
  (page_to_show current_page user_role = AdminPanel →
     user_role = "admin" ∧ current_page = "admin_users")
  ∧ (user_role ≠ "admin" → current_page = "admin_users" →
     page_to_show current_page user_role = EvaluationPage)
  ∧ (page_functions current_page = None →
     page_to_show current_page user_role = EvaluationPage).
Proof.
  unfold page_to_show.
  destruct (decide (current_page = "admin_users" ∧ user_role ≠ "admin"))
    as [[Hp Hr]|Hn].
  - split_and!; done.
  - split_and!.
    + intros Hpage. unfold page_functions in Hpage.
      repeat case_decide; simplify_eq/=.
      split; [|done]. apply dec_stable. tauto.
    + tauto.
    + by intros ->.
Qed.

(** ** Options of a question: joined on save, split on display *)

Lemma length_split (c : ascii) (s : string) :
  length (split c s) = S (occurrences c s).
Proof.
  induction s as [|a s IH]; simpl; [done|].
  destruct (decide (a = c)); simpl; [by rewrite IH|].
  destruct (split c s); simpl in *; lia.
Qed.

Lemma split_without (c : ascii) (x : string) :
  occurrences c x = 0%nat → split c x = [x].
Proof.
  induction x as [|a x IH]; simpl; [done|].
  destruct (decide (a = c)); [done|]. simpl. intros H. by rewrite IH.
Qed.

Lemma split_append (c : ascii) (x rest : string) :
  occurrences c x = 0%nat →
  split c (x +:+ String c rest) = x :: split c rest.
Proof.
  induction x as [|a x IH]; simpl.
  - intros _. by rewrite decide_True.
  - destruct (decide (a = c)); [done|]. simpl. intros H. by rewrite IH.
Qed.

Lemma split_parts_without (c : ascii) (s x : string) :
  x ∈ split c s → occurrences c x = 0%nat.
Proof.
  revert x. induction s as [|a s IH]; simpl; intros x Hx.
  - apply list_elem_of_singleton in Hx. by subst.
  - destruct (decide (a = c)).
    + apply elem_of_cons in Hx as [->|Hx]; [done|]. by apply IH.
    + destruct (split c s) as [|w ws] eqn:E.
      * apply list_elem_of_singleton in Hx. subst. simpl. by rewrite decide_False.
      * apply elem_of_cons in Hx as [->|Hx].
        -- simpl. rewrite decide_False by done. simpl. apply IH, list_elem_of_here.
        -- apply IH. by apply list_elem_of_further.
Qed.

Lemma split_join (c : ascii) (l : list string) :
  l ≠ [] →
  (∀ x, x ∈ l → occurrences c x = 0%nat) →
  split c (join (String c "") l) = l.
Proof.
  induction l as [|x l IH]; [done|]. intros _ Hall.
  destruct l as [|y l].
  - simpl. apply split_without, Hall, list_elem_of_here.
  - change (join (String c "") (x :: y :: l))
      with (x +:+ String c "" +:+ join (String c "") (y :: l)).
    change (String c "" +:+ join (String c "") (y :: l))
      with (String c (join (String c "") (y :: l))).
    rewrite split_append by apply Hall, list_elem_of_here.
    rewrite IH; [done|done|].
    intros z Hz. by apply Hall, list_elem_of_further.
Qed.

(** X9. Joining options with a bar and splitting the text at bars gives
    the options back exactly when none of them contains a bar; an
    option with a bar in it comes back in pieces. *)
Theorem split_join_round_trip (l : list string) :
  l ≠ [] →
  split bar (join "|" l) = l ↔ ∀ x, x ∈ l → occurrences bar x = 0%nat.
Proof.
  intros Hne. split.
  - intros Heq x Hx. rewrite <- Heq in Hx. by eapply split_parts_without.
  - intros Hall. by apply (split_join bar).
Qed.

Lemma split_join_round_trip_sample :
  split bar (join "|" ["IAM"; "TEP"; "Neumonia"; "Reflujo"])
  = ["IAM"; "TEP"; "Neumonia"; "Reflujo"].
Proof.
  apply (split_join_round_trip ["IAM"; "TEP"; "Neumonia"; "Reflujo"]); [discriminate|].
  intros x Hx. repeat (apply elem_of_cons in Hx as [->|Hx]; [reflexivity|]).
  by apply elem_of_nil in Hx.
Defined.

(** ** Authoring a question *)

Lemma max_rowid_ge (m : gmap Z Question) (id : Z) :
  is_Some (m !! id) → id ≤ max_rowid m.
Proof.
  intros [q Hq]. unfold max_rowid.
  assert (id ∈ (map_to_list m).*1) as Hin.
  { apply list_elem_of_fmap. exists (id, q). split; [done|].
    by apply elem_of_map_to_list. }
  induction ((map_to_list m).*1) as [|a l IH]; [by apply elem_of_nil in Hin|].
  simpl. apply elem_of_cons in Hin as [->|Hin]; [lia|].
  specialize (IH Hin). lia.
Qed.

Lemma insert_question_Some (s s' : Store) (q : Question) (id : Z) :
  insert_question s q = Some (id, s') →
  questions_seq s < id
  ∧ questions (tables s) !! id = None
  ∧ questions_seq s' = id
  ∧ questions (tables s') = <[id := q]> (questions (tables s))
  ∧ users (tables s') = users (tables s)
  ∧ progress (tables s') = progress (tables s).
Proof.
  unfold insert_question. case_decide; [|done]. intros [= <- <-]. simpl.
  split_and!; try done; [lia|].
  destruct (questions (tables s) !! _) as [x|] eqn:E; [|done].
  assert (is_Some (questions (tables s)
            !! (Z.max (questions_seq s) (max_rowid (questions (tables s))) + 1)))
    as Hs by (by rewrite E).
  apply max_rowid_ge in Hs. lia.
Qed.

Lemma max_rowid_nonneg (m : gmap Z Question) : 0 ≤ max_rowid m.
Proof.
  unfold max_rowid. induction ((map_to_list m).*1) as [|a l IH]; simpl; lia.
Qed.

Lemma insert_question_id_positive (s s' : Store) (q : Question) (id : Z) :
  insert_question s q = Some (id, s') → 1 ≤ id.
Proof.
  unfold insert_question. case_decide; [|done]. intros [= <- _].
  pose proof (max_rowid_nonneg (questions (tables s))). lia.
Qed.

Lemma show_create_page_submitted_Success owner enunciado a b c d correcta_idx
    retroalimentacion tag_categoria tag_tema (s s' : Store) :
  show_create_page_submitted owner enunciado a b c d correcta_idx retroalimentacion
    tag_categoria tag_tema s = Some (Success, s') →
  ∃ correcta id,
    [a; b; c; d] !! correcta_idx = Some correcta
    ∧ enunciado ≠ "" ∧ a ≠ "" ∧ b ≠ "" ∧ c ≠ "" ∧ d ≠ ""
    ∧ retroalimentacion ≠ "" ∧ tag_tema ≠ ""
    ∧ (∃ t, tag_categoria = Some t ∧ t ≠ "")
    ∧ insert_question s
        {| owner_username := owner; enunciado := enunciado;
           opciones := join "|" [a; b; c; d]; correcta := correcta;
           retroalimentacion := retroalimentacion;
           tag_categoria := tag_categoria; tag_tema := Some tag_tema |}
      = Some (id, s').
Proof.
  unfold show_create_page_submitted.
  destruct (negb _) eqn:Hfill; [done|].
  apply negb_false_iff in Hfill.
  repeat (apply andb_true_iff in Hfill as [Hfill ?]).
  destruct ([a; b; c; d] !! correcta_idx) as [correcta|] eqn:Hc; [|done]. simpl.
  destruct (insert_question s _) as [[id s'']|] eqn:Hi; [|done]. simpl.
  intros [= <-]. exists correcta, id.
  unfold filled in *. repeat match goal with
    | H : bool_decide _ = true |- _ => apply bool_decide_eq_true in H end.
  split_and!; try done.
  destruct tag_categoria as [t|]; [|done]. exists t. split; [done|].
  by apply bool_decide_eq_true in H0.
Qed.

(** X10. A form with an empty text field or no category saves nothing
    and warns; a saved question never has an empty statement, option,
    feedback or tag, and its correct option is one of the four options
    entered. *)
Theorem show_create_page_validates owner texto a b c d correcta_idx
    retro categoria tema (s : Store) :
  let r := show_create_page_submitted owner texto a b c d correcta_idx
             retro categoria tema s in
  ((texto = "" ∨ a = "" ∨ b = "" ∨ c = "" ∨ d = "" ∨ retro = ""
    ∨ categoria = None ∨ categoria = Some "" ∨ tema = "") →
     r = Some (Warning, s))
  ∧ (∀ s', r = Some (Success, s') →
       ∃ q, questions (tables s') !! questions_seq s' = Some q
            ∧ owner_username q = owner
            ∧ enunciado q ≠ "" ∧ retroalimentacion q ≠ ""
            ∧ correcta q ≠ "" ∧ correcta q ∈ [a; b; c; d]
            ∧ opciones q = join "|" [a; b; c; d]
            ∧ is_Some (tag_categoria q) ∧ is_Some (tag_tema q)).
Proof.
  intros r. subst r. split.
  - intros Hempty. unfold show_create_page_submitted.
    assert (filled texto && filled a && filled b && filled c && filled d
            && filled retro && chosen categoria && filled tema
            = false) as ->; [|done].
    unfold filled, chosen.
    destruct Hempty as [->|[->|[->|[->|[->|[->|[->|[->| ->]]]]]]]];
      simpl; rewrite ?andb_false_r; done.
  - intros s' Hs.
    apply show_create_page_submitted_Success in Hs
      as (correcta & id & Hc & He & Ha & Hb & Hcc & Hd & Hr & Ht & Hcat & Hi).
    apply insert_question_Some in Hi as (_ & _ & Hseq & Hq & _ & _).
    rewrite Hseq, Hq, lookup_insert_eq. eexists. split; [done|]. simpl.
    destruct Hcat as (t & -> & _).
    assert (correcta ∈ [a; b; c; d]) as Hin by (by eapply list_elem_of_lookup_2).
    split_and!; try done.
    repeat (apply elem_of_cons in Hin as [->|Hin]; [done|]).
    by apply elem_of_nil in Hin.
Qed.

(** X11. What the evaluation page shows for a saved question: when none
    of the four options contains a bar, exactly the four options, the
    correct one among them; when the correct option contains a bar, it
    is not among the options shown, so no answer to that question can
    equal it. *)
Theorem saved_question_shown_options owner texto a b c d correcta_idx
    retro categoria tema (s s' : Store) (q : Question) :
  show_create_page_submitted owner texto a b c d correcta_idx retro
    categoria tema s = Some (Success, s') →
  questions (tables s') !! questions_seq s' = Some q →
  ((∀ x, x ∈ [a; b; c; d] → occurrences bar x = 0%nat) →
     shown_options q = [a; b; c; d] ∧ correcta q ∈ shown_options q)
  ∧ (occurrences bar (correcta q) ≠ 0%nat → correcta q ∉ shown_options q)
  ∧ length (shown_options q)
    = (4 + occurrences bar a + occurrences bar b + occurrences bar c
       + occurrences bar d)%nat.
Proof.
  intros Hs Hq.
  apply show_create_page_submitted_Success in Hs
    as (cor & id & Hc & _ & _ & _ & _ & _ & _ & _ & _ & Hi).
  apply insert_question_Some in Hi as (_ & _ & Hseq & Hqs & _ & _).
  remember (join "|" [a; b; c; d]) as joined eqn:Hj in Hqs.
  rewrite Hseq, Hqs, lookup_insert_eq in Hq. injection Hq as <-.
  unfold shown_options. cbn [opciones correcta]. subst joined.
  split_and!.
  - intros Hall.
    assert (split bar (join "|" [a; b; c; d]) = [a; b; c; d]) as Hrt.
    { by apply (split_join bar). }
    rewrite Hrt. split; [done|]. by eapply list_elem_of_lookup_2.
  - intros Hbar Hin. by apply split_parts_without in Hin.
  - rewrite length_split.
    change (join "|" [a; b; c; d])
      with (a +:+ String bar (b +:+ String bar (c +:+ String bar d))).
    assert (∀ x y, occurrences bar (x +:+ String bar y)
                   = S (occurrences bar x + occurrences bar y)) as Happ.
    { intros x y. induction x as [|ch x IH]; simpl; [done|]. rewrite IH. lia. }
    rewrite !Happ. lia.
Qed.

Lemma saved_question_shown_options_sample :
  shown_options
    {| owner_username := "ana"; enunciado := "Dolor toracico";
       opciones := "IAM|TEP|Neumonia|Reflujo"; correcta := "TEP";
       retroalimentacion := "Disnea subita"; tag_categoria := Some "Urgencia";
       tag_tema := Some "Torax" |}
  = ["IAM"; "TEP"; "Neumonia"; "Reflujo"].
Proof.
  edestruct (saved_question_shown_options "ana" "Dolor toracico"
               "IAM" "TEP" "Neumonia" "Reflujo" 1 "Disnea subita"
               (Some "Urgencia") "Torax" sample_store) as (H & _ & _).
  - vm_compute. reflexivity.
  - vm_compute. reflexivity.
  - apply H. intros x Hx.
    repeat (apply elem_of_cons in Hx as [->|Hx]; [reflexivity|]).
    by apply elem_of_nil in Hx.
Defined.

(** ** Identifiers of questions *)

Lemma update_srs_leaves_rest username question_id difficulty today f :
  users (update_srs username question_id difficulty today f).2 = users f
  ∧ questions (update_srs username question_id difficulty today f).2 = questions f
  ∧ ∀ u q, (u, q) ≠ (username, question_id) →
      progress (update_srs username question_id difficulty today f).2 !! (u, q)
      = progress f !! (u, q).
Proof.
  rewrite update_srs_unfold.
  destruct (loaded_state f username question_id) as [[i c] w].
  destruct (srs_step difficulty i c w) as [[i' c'] w'].
  destruct (timedelta i') as [delta|e]; simpl; [|done].
  destruct (date_add today delta) as [due|e]; simpl; [|done].
  unfold upsert_progress.
  destruct (bind_int question_id) as [z|e] eqn:E1; simpl; [|done].
  apply bind_int_inv in E1 as ->.
  destruct (bind_int i') as [z|e]; simpl; [|done].
  destruct (bind_int c') as [z1|e]; simpl; [|done].
  destruct (bind_int w') as [z2|e]; simpl; [|done].
  split_and!; try done. intros u q Hne. by rewrite lookup_insert_ne.
Qed.

Lemma update_srs_progress_keys username question_id difficulty today f u q :
  is_Some (progress (update_srs username question_id difficulty today f).2 !! (u, q)) →
  is_Some (progress f !! (u, q)) ∨ (u, q) = (username, question_id).
Proof.
  destruct (decide ((u, q) = (username, question_id))) as [Heq|Hne]; [by right|].
  pose proof (update_srs_leaves_rest username question_id difficulty today f)
    as (_ & _ & H).
  rewrite (H u q Hne). by left.
Qed.

(** X12. A saved question gets an id that is new and was never in use:
    it is above the sequence, so above every id given out before, also
    those of deleted questions; the questions already there, the users
    and the review records are as before. *)
Theorem show_create_page_fresh_id owner texto a b c d correcta_idx
    retro categoria tema (s s' : Store) :
  show_create_page_submitted owner texto a b c d correcta_idx retro
    categoria tema s = Some (Success, s') →
  questions_seq s < questions_seq s'
  ∧ ¬ is_question (tables s) (questions_seq s')
  ∧ is_question (tables s') (questions_seq s')
  ∧ (∀ id, id ≠ questions_seq s' →
       questions (tables s') !! id = questions (tables s) !! id)
  ∧ users (tables s') = users (tables s)
  ∧ progress (tables s') = progress (tables s).
Proof.
  intros Hs.
  apply show_create_page_submitted_Success in Hs
    as (cor & id & _ & _ & _ & _ & _ & _ & _ & _ & _ & Hi).
  apply insert_question_Some in Hi as (Hlt & Hnone & Hseq & Hq & Hu & Hp).
  rewrite Hseq. unfold is_question. rewrite Hq, Hnone.
  split_and!; [done| by intros [x Hx] | | |done|done].
  - rewrite lookup_insert_eq. by eexists.
  - intros id' Hne. by rewrite lookup_insert_ne.
Qed.

Lemma show_create_page_fresh_id_sample :
  questions_seq sample_store < 2.
Proof.
  edestruct (show_create_page_fresh_id "ana" "Dolor toracico"
               "IAM" "TEP" "Neumonia" "Reflujo" 1 "Disnea subita"
               (Some "Urgencia") "Torax" sample_store) as (H & _).
  - vm_compute. reflexivity.
  - exact H.
Defined.

(** X13. That every id in use was given out by the sequence is kept by
    every operation on questions and review records: saving a question,
    deleting one, deleting a user, and answering a question of the
    table. *)
Theorem ids_given_out_kept (s : Store) :
  ids_given_out s →
  (∀ owner texto a b c d correcta_idx retro categoria tema m s',
     show_create_page_submitted owner texto a b c d correcta_idx retro
       categoria tema s = Some (m, s') → ids_given_out s')
  ∧ (∀ id, ids_given_out (delete_question_from_store id s))
  ∧ (∀ username,
       ids_given_out {| tables := (delete_user_from_db username (tables s)).2;
                        questions_seq := questions_seq s |})
  ∧ (∀ username question_id difficulty today,
       is_question (tables s) question_id →
       ids_given_out (update_srs_in_store username question_id difficulty today s)).
Proof.
  intros [Hq Hp]. split_and!.
  - intros owner texto a b c d correcta_idx retro categoria tema m s' Hs.
    destruct m.
    + unfold show_create_page_submitted in Hs.
      destruct (negb _); [by injection Hs as <-|].
      destruct (_ !! correcta_idx); [|done]. simpl in Hs.
      by destruct (insert_question s _) as [[? ?]|].
    + unfold show_create_page_submitted in Hs.
      destruct (negb _); [done|].
      destruct (_ !! correcta_idx); [|done]. simpl in Hs.
      by destruct (insert_question s _) as [[? ?]|].
    + apply show_create_page_submitted_Success in Hs
        as (cor & id & _ & _ & _ & _ & _ & _ & _ & _ & _ & Hi).
      pose proof (insert_question_id_positive _ _ _ _ Hi) as Hid.
      apply insert_question_Some in Hi as (Hlt & Hnone & Hseq & Hqs & Hu & Hpr).
      split.
      * intros q [x Hx]. rewrite Hqs in Hx. rewrite Hseq.
        destruct (decide (id = q)) as [->|Hne]; [lia|].
        rewrite lookup_insert_ne in Hx by done.
        assert (1 ≤ q ≤ questions_seq s) by (apply Hq; by exists x). lia.
      * intros u q Hx. rewrite Hpr in Hx. rewrite Hseq.
        pose proof (Hp u q Hx). lia.
  - intros id. split.
    + intros q [x Hx]. simpl in Hx.
      apply lookup_delete_Some in Hx as [_ Hx]. apply Hq. by exists x.
    + intros u q Hx. by apply (Hp u q).
  - intros username.
    pose proof (delete_user_from_db_frame username (tables s)) as [_ Hqs].
    split; simpl.
    + intros q Hx. apply Hq. unfold is_question in *. by rewrite <- Hqs.
    + intros u q [x Hx]. apply (Hp u q).
      unfold delete_user_from_db in Hx.
      destruct (decide (username = "admin")); simpl in Hx; [by exists x|].
      apply map_lookup_filter_Some in Hx as [Hx _]. by exists x.
  - intros username question_id difficulty today Hin.
    pose proof (update_srs_leaves_rest username question_id difficulty today (tables s))
      as (_ & Hqs & _).
    split; simpl.
    + intros q Hx. apply Hq. unfold is_question in *. by rewrite <- Hqs.
    + intros u q Hx.
      apply update_srs_progress_keys in Hx as [Hx|[= -> ->]]; [by apply (Hp u q)|].
      by apply Hq.
Qed.

Lemma ids_given_out_kept_sample :
  ids_given_out
    (default (Success, answered_store)
       (show_create_page_submitted "ana" "Dolor toracico"
          "IAM" "TEP" "Neumonia" "Reflujo" 1 "Disnea subita"
          (Some "Urgencia") "Torax" answered_store)).2
  ∧ ids_given_out (delete_question_from_store 1 answered_store)
  ∧ ids_given_out {| tables := (delete_user_from_db ana (tables answered_store)).2;
                     questions_seq := questions_seq answered_store |}
  ∧ ids_given_out (update_srs_in_store ana 1 hard day_2026_11_03 answered_store).
Proof.
  assert (ids_given_out answered_store) as Hinv.
  { split.
    - intros q [x Hx]. unfold answered_store, store_with in Hx. simpl in Hx.
      apply lookup_singleton_Some in Hx as [<- _]. simpl. lia.
    - intros u q [x Hx]. unfold answered_store, store_with in Hx. simpl in Hx.
      apply lookup_singleton_Some in Hx as [[= <- <-] _]. simpl. lia. }
  destruct (ids_given_out_kept answered_store Hinv) as (Hc & Hd & Hu & Ha).
  split_and!.
  - apply (Hc "ana" "Dolor toracico" "IAM" "TEP" "Neumonia" "Reflujo" 1%nat
             "Disnea subita" (Some "Urgencia") "Torax" Success).
    vm_compute. reflexivity.
  - apply Hd.
  - apply Hu.
  - apply Ha. exists sample_question. reflexivity.
Defined.

(** ** What the scheduler can and cannot return *)

Lemma scheduler_result_cases username practice_mode today random f q :
  (get_next_question_for_user username practice_mode today random f).1 = Some q →
  is_question f q
  ∧ (practice_mode = true
     ∨ due_question f username today q
     ∨ unseen_question f username q).
Proof.
  destruct practice_mode.
  - rewrite get_next_question_for_user_practice. intros H.
    apply order_by_random_limit_1_elem, elem_of_select_question_ids in H. tauto.
  - rewrite get_next_question_for_user_standard.
    destruct (order_by_random_limit_1 random (select_due _ _ _)) as [d|] eqn:Ed.
    + intros [= ->].
      apply order_by_random_limit_1_elem, elem_of_select_due in Ed.
      split; [apply Ed|]. right. by left.
    + intros H.
      apply order_by_random_limit_1_elem, elem_of_select_unseen in H.
      split; [apply H|]. right. by right.
Qed.

Lemma scheduler_standard_None username today random f :
  (get_next_question_for_user username false today random f).1 = None
  ↔ (∀ q, ¬ due_question f username today q) ∧ (∀ q, ¬ unseen_question f username q).
Proof.
  rewrite get_next_question_for_user_standard. split.
  - destruct (order_by_random_limit_1 random (select_due _ _ _)) eqn:Ed; [done|].
    intros Eu.
    apply order_by_random_limit_1_None in Ed, Eu.
    split; intros q Hq.
    + apply elem_of_select_due in Hq. rewrite Ed in Hq. by apply elem_of_nil in Hq.
    + apply elem_of_select_unseen in Hq. rewrite Eu in Hq. by apply elem_of_nil in Hq.
  - intros [Hd Hu].
    assert (select_due (get_db_conn f) username today = []) as ->.
    { apply nil_iff_no_elem. intros [q Hq]. apply (Hd q). by apply elem_of_select_due. }
    assert (select_unseen (get_db_conn f) username = []) as ->.
    { apply nil_iff_no_elem. intros [q Hq]. apply (Hu q).
      by apply elem_of_select_unseen. }
    done.
Qed.

(** X14. Whatever the scheduler returns is the id of a question of the
    table; in standard mode it is moreover due or unseen for the user,
    so a question whose review record is not yet due is never
    offered, and a review record whose question is gone is never
    followed. *)
Theorem scheduler_sound (username : string) (practice_mode : bool) (today : Z)
    (random : nat → Z) (f : DB) (q : Z) :
  (get_next_question_for_user username practice_mode today random f).1 = Some q →
  is_question f q
  ∧ (practice_mode = false →
     (due_question f username today q ∨ unseen_question f username q)
     ∧ ∀ p, progress f !! (username, q) = Some p → due_date p ≤ today).
Proof.
  intros H. apply scheduler_result_cases in H as [Hq Hcases].
  split; [done|]. intros ->.
  destruct Hcases as [?|Hcases]; [done|]. split; [done|].
  intros p Hp. destruct Hcases as [[_ (p' & Hp' & Hle)]|[_ Hnone]]; congruence.
Qed.

Lemma scheduler_sound_sample :
  is_question (store_with None) 1.
Proof.
  apply (scheduler_sound ana false day_2026_11_03 (favour 0) (store_with None) 1).
  vm_compute. reflexivity.
Defined.

Lemma show_create_page_submitted_not_saved owner texto a b c d correcta_idx
    retro categoria tema (s s' : Store) (m : message) :
  show_create_page_submitted owner texto a b c d correcta_idx retro
    categoria tema s = Some (m, s') →
  m ≠ Success → s' = s.
Proof.
  unfold show_create_page_submitted.
  destruct (negb _); [by intros [= <- <-]|].
  destruct (_ !! correcta_idx); [|done]. simpl.
  destruct (insert_question s _) as [[? ?]|]; [|done]. simpl.
  by intros [= <- <-].
Qed.

Lemma step_keeps_questions_gone (id : Z) (s s' : Store) :
  step s s' →
  id ≤ questions_seq s ∧ ¬ is_question (tables s) id →
  id ≤ questions_seq s' ∧ ¬ is_question (tables s') id.
Proof.
  intros Hstep [Hle Hgone]. destruct Hstep.
  - destruct m.
    + by rewrite (show_create_page_submitted_not_saved _ _ _ _ _ _ _ _ _ _ _ _ _ H).
    + by rewrite (show_create_page_submitted_not_saved _ _ _ _ _ _ _ _ _ _ _ _ _ H).
    + apply show_create_page_submitted_Success in H
        as (cor & id' & _ & _ & _ & _ & _ & _ & _ & _ & _ & Hi).
      apply insert_question_Some in Hi as (Hlt & _ & Hseq & Hq & _ & _).
      split; [lia|]. unfold is_question. rewrite Hq.
      rewrite lookup_insert_ne by lia. done.
  - split; [done|]. intros [x Hx]. unfold delete_question_from_db in Hx.
    simpl in Hx. apply lookup_delete_Some in Hx as [_ Hx]. apply Hgone. by exists x.
  - split; [done|]. simpl. unfold is_question.
    by rewrite (proj2 (delete_user_from_db_frame username (tables s))).
  - split; [done|]. simpl. unfold is_question.
    pose proof (update_srs_leaves_rest username question_id difficulty today (tables s))
      as (_ & Hq & _).
    by rewrite Hq.
  - split; [done|]. simpl. unfold is_question.
    assert (questions (show_login_page_register new_username new_password hashed_pass
                         (tables s)).2 = questions (tables s)) as ->; [|done].
    unfold show_login_page_register.
    repeat case_decide; try done.
    destruct hashed_pass; [|done].
    unfold insert_user. simpl. by destruct (users (tables s) !! new_username).
  - split; [done|]. simpl. unfold is_question.
    assert (questions (show_change_password_page_submitted current_user password_new
                         password_confirm new_password_hash (tables s)).2
            = questions (tables s)) as ->; [|done].
    unfold show_change_password_page_submitted.
    repeat case_decide; try done. by destruct new_password_hash.
Qed.

(** X15. A deleted question is never offered again.  When the Eliminar
    button deletes a question whose id the sequence had given out, then
    after any further operations of the application (questions saved,
    questions or users deleted, answers recorded also for the deleted
    id, registrations, password changes) the id is not a question of
    the table and the scheduler does not return it, in either mode and
    for any user, although its review records are still stored; saved
    questions get other ids.  An answer recorded for the deleted id is
    accepted and stored all the same. *)
Theorem deleted_question_never_offered (id : Z) (s s' : Store)
    (username : string) (practice_mode : bool) (today : Z) (random : nat → Z) :
  id ≤ questions_seq s →
  rtc step (delete_question_from_store id s) s' →
  ¬ is_question (tables s') id
  ∧ (get_next_question_for_user username practice_mode today random (tables s')).1
    ≠ Some id
  ∧ (∀ u, progress (tables (delete_question_from_store id s)) !! (u, id)
          = progress (tables s) !! (u, id))
  ∧ (∀ u difficulty day i c w i' c' w',
       loaded_state (tables s') u id = (i, c, w) →
       srs_step difficulty i c w = (i', c', w') →
       storable day id i' c' w' →
       (update_srs u id difficulty day (tables s')).1 = Return None
       ∧ is_Some (progress (update_srs u id difficulty day (tables s')).2 !! (u, id))).
Proof.
  intros Hle Hrtc.
  assert (id ≤ questions_seq s' ∧ ¬ is_question (tables s') id) as [_ Hgone].
  { assert (id ≤ questions_seq (delete_question_from_store id s)
            ∧ ¬ is_question (tables (delete_question_from_store id s)) id) as Hstart.
    { split; [done|]. unfold is_question. simpl.
      rewrite lookup_delete_eq. by intros [x Hx]. }
    revert Hstart. induction Hrtc as [|x y z Hxy _ IH]; [done|].
    intros Hx. apply IH. by eapply step_keeps_questions_gone. }
  split_and!.
  - done.
  - intros H. by apply scheduler_result_cases in H as [Hq _].
  - done.
  - intros u difficulty day i c w i' c' w' Hload Hstep Hst.
    rewrite (update_srs_storable Hload Hstep Hst). simpl.
    split; [done|]. rewrite lookup_insert_eq. by eexists.
Qed.

Lemma deleted_question_never_offered_sample :
  let s' := (default (Success, sample_store)
               (show_create_page_submitted "ana" "Dolor toracico"
                  "IAM" "TEP" "Neumonia" "Reflujo" 1 "Disnea subita"
                  (Some "Urgencia") "Torax"
                  (delete_question_from_store 1 answered_store))).2 in
  (get_next_question_for_user ana true day_2026_11_03 (favour 0) (tables s')).1 ≠ Some 1.
Proof.
  intros s'.
  edestruct (deleted_question_never_offered 1 answered_store s' ana true
               day_2026_11_03 (favour 0)) as (_ & H & _).
  - vm_compute. discriminate.
  - apply rtc_once.
    apply (step_create _ "ana" "Dolor toracico" "IAM" "TEP" "Neumonia" "Reflujo" 1%nat
             "Disnea subita" (Some "Urgencia") "Torax" Success).
    vm_compute. reflexivity.
  - exact H.
Defined.

(** X16. The choice is random, not first-match: a question of the table
    is returned in practice mode for suitable draws, a due question in
    standard mode for suitable draws, and an unseen question in
    standard mode for suitable draws when nothing is due. *)
Theorem every_candidate_reachable (username : string) (today : Z) (f : DB) (q : Z) :
  (is_question f q →
     ∃ random, (get_next_question_for_user username true today random f).1 = Some q)
  ∧ (due_question f username today q →
     ∃ random, (get_next_question_for_user username false today random f).1 = Some q)
  ∧ (unseen_question f username q → (∀ q', ¬ due_question f username today q') →
     ∃ random, (get_next_question_for_user username false today random f).1 = Some q).
Proof.
  split_and!.
  - intros Hq. apply elem_of_select_question_ids in Hq.
    apply list_elem_of_lookup in Hq as [n Hn].
    exists (favour n). rewrite get_next_question_for_user_practice.
    by apply order_by_random_limit_1_any.
  - intros Hq. apply elem_of_select_due in Hq.
    apply list_elem_of_lookup in Hq as [n Hn].
    exists (favour n). rewrite get_next_question_for_user_standard.
    by rewrite (order_by_random_limit_1_any _ _ _ Hn).
  - intros Hq Hnodue. apply elem_of_select_unseen in Hq.
    apply list_elem_of_lookup in Hq as [n Hn].
    exists (favour n). rewrite get_next_question_for_user_standard.
    assert (select_due (get_db_conn f) username today = []) as ->.
    { apply nil_iff_no_elem. intros [q' Hq']. apply (Hnodue q').
      by apply elem_of_select_due. }
    simpl. by apply order_by_random_limit_1_any.
Qed.

(** X17. Under the invariant that every id in use was given out, a saved
    question is unseen for every user, so each user is offered some
    question in standard mode; and a user who had nothing to do before
    is offered exactly the new question.  Records left behind by
    deleted questions do not attach to it. *)
Theorem saved_question_is_offered owner texto a b c d correcta_idx
    retro categoria tema (s s' : Store)
    (username : string) (today : Z) (random : nat → Z) :
  ids_given_out s →
  show_create_page_submitted owner texto a b c d correcta_idx retro
    categoria tema s = Some (Success, s') →
  unseen_question (tables s') username (questions_seq s')
  ∧ (get_next_question_for_user username false today random (tables s')).1 ≠ None
  ∧ ((get_next_question_for_user username false today random (tables s)).1 = None →
     (get_next_question_for_user username false today random (tables s')).1
     = Some (questions_seq s')).
Proof.
  intros [Hids Hrec] Hs.
  apply show_create_page_submitted_Success in Hs
    as (cor & id & _ & _ & _ & _ & _ & _ & _ & _ & _ & Hi).
  apply insert_question_Some in Hi as (Hlt & Hnone & Hseq & Hq & Hu & Hp).
  rewrite Hseq.
  assert (unseen_question (tables s') username id) as Hunseen.
  { split.
    - unfold is_question. rewrite Hq, lookup_insert_eq. by eexists.
    - rewrite Hp. destruct (progress (tables s) !! (username, id)) eqn:E; [|done].
      assert (1 ≤ id ≤ questions_seq s) by (apply (Hrec username); by rewrite E). lia. }
  split_and!; [done| |].
  - intros HNone. apply scheduler_standard_None in HNone as [_ Hu']. by apply (Hu' id).
  - intros HNone. apply scheduler_standard_None in HNone as [Hnd Hnu].
    assert (∀ q, q ≠ id → is_question (tables s') q → is_question (tables s) q) as Hold.
    { intros q Hne. unfold is_question. by rewrite Hq, lookup_insert_ne. }
    destruct (get_next_question_for_user username false today random (tables s')).1
      as [q|] eqn:E.
    + apply scheduler_result_cases in E as [Hin [?|[Hd|Hn]]]; [done| |].
      * destruct (decide (q = id)) as [->|Hne]; [done|]. exfalso.
        apply (Hnd q). split; [by apply Hold|].
        destruct Hd as [_ Hd]. unfold due_on in *. by rewrite <- Hp.
      * destruct (decide (q = id)) as [->|Hne]; [done|]. exfalso.
        apply (Hnu q). split; [by apply Hold|].
        destruct Hn as [_ Hn]. by rewrite <- Hp.
    + apply scheduler_standard_None in E as [_ Hu']. by destruct (Hu' id).
Qed.

Lemma saved_question_is_offered_sample :
  (get_next_question_for_user "luis" false day_2026_11_03 (favour 0)
     (tables (default (Success, sample_store)
                (show_create_page_submitted "ana" "Dolor toracico"
                   "IAM" "TEP" "Neumonia" "Reflujo" 1 "Disnea subita"
                   (Some "Urgencia") "Torax" sample_store)).2)).1 ≠ None.
Proof.
  edestruct (saved_question_is_offered "ana" "Dolor toracico"
               "IAM" "TEP" "Neumonia" "Reflujo" 1 "Disnea subita"
               (Some "Urgencia") "Torax" sample_store) as (_ & H & _).
  - split.
    + intros q [x Hx]. unfold sample_store, store_with in Hx. simpl in Hx.
      apply lookup_singleton_Some in Hx as [<- _]. simpl. lia.
    + intros u q [x Hx]. unfold sample_store, store_with in Hx. simpl in Hx.
      by rewrite lookup_empty in Hx.
  - vm_compute. reflexivity.
  - exact H.
Defined.

(** ** More on the review updater *)

Lemma update_srs_cases username question_id difficulty today f i c w i' c' w' :
  loaded_state f username question_id = (i, c, w) →
  srs_step difficulty i c w = (i', c', w') →
  (within_range today question_id i' c' w'
   ∧ update_srs username question_id difficulty today f
     = (Return None,
        {| users := users f; questions := questions f;
           progress :=
             <[(username, question_id) :=
                 {| due_date := today + i'; interval := i';
                    aciertos := c'; fallos := w' |}]> (progress f) |}))
  ∨ (¬ within_range today question_id i' c' w'
     ∧ update_srs username question_id difficulty today f = (Raise OverflowError, f)).
Proof.
  intros Hload Hstep. rewrite update_srs_unfold, Hload, Hstep.
  unfold within_range, timedelta, date_add, upsert_progress, bind_int, sqlite_integer.
  destruct (decide (Z.abs i' ≤ MAX_DELTA_DAYS)); simpl; [|right; split; [tauto|done]].
  destruct (decide (0 < today + i' ≤ MAXORDINAL)); simpl; [|right; split; [tauto|done]].
  destruct (decide (- 2 ^ 63 ≤ question_id < 2 ^ 63)); simpl;
    [|right; split; [tauto|done]].
  destruct (decide (- 2 ^ 63 ≤ i' < 2 ^ 63)); simpl; [|right; split; [tauto|done]].
  destruct (decide (- 2 ^ 63 ≤ c' < 2 ^ 63)); simpl; [|right; split; [tauto|done]].
  destruct (decide (- 2 ^ 63 ≤ w' < 2 ^ 63)); simpl; [|right; split; [tauto|done]].
  left. split; [tauto|done].
Qed.

(** X18. [update_srs] never touches the users, the questions or the
    review record of any other pair, whatever the difficulty; and a
    call that raises has written nothing at all. *)
Theorem update_srs_frame (username : string) (question_id : Z) (difficulty : string)
    (today : Z) (f : DB) :
  let r := update_srs username question_id difficulty today f in
  users r.2 = users f
  ∧ questions r.2 = questions f
  ∧ (∀ u q, (u, q) ≠ (username, question_id) →
       progress r.2 !! (u, q) = progress f !! (u, q))
  ∧ (∀ e, r.1 = Raise e → r.2 = f).
Proof.
  intros r. subst r.
  pose proof (update_srs_leaves_rest username question_id difficulty today f)
    as (Hu & Hq & Hp).
  split_and!; try done.
  intros e He.
  destruct (update_srs username question_id difficulty today f) as [o f'] eqn:E.
  simpl in *. subst o. by eapply update_srs_raise_keeps_file.
Qed.

(** X19. When [update_srs] completes and when it raises: with (i', c',
    w') the new interval and counts, the call completes, storing due
    date today + i', exactly when i' is at most 999999999 in absolute
    value, today + i' is a date from 0001-01-01 to 9999-12-31 and the
    identifier, i', c' and w' fit a signed 64-bit integer; otherwise it
    raises [OverflowError] and the file is unchanged. *)
Theorem update_srs_completes_iff (username : string) (question_id : Z)
    (difficulty : string) (today : Z) (f : DB) (i c w i' c' w' : Z) :
  loaded_state f username question_id = (i, c, w) →
  srs_step difficulty i c w = (i', c', w') →
  let r := update_srs username question_id difficulty today f in
  (r.1 = Return None ↔ within_range today question_id i' c' w')
  ∧ (r.1 = Return None →
     persisted r username question_id
     = Some {| due_date := today + i'; interval := i'; aciertos := c'; fallos := w' |})
  ∧ (¬ within_range today question_id i' c' w' → r = (Raise OverflowError, f)).
Proof.
  intros Hload Hstep r. subst r.
  destruct (update_srs_cases _ _ _ today _ _ _ _ _ _ _ Hload Hstep)
    as [[Hin ->]|[Hout ->]]; simpl.
  - split_and!; [done| |done].
    intros _. unfold persisted. simpl. apply lookup_insert_eq.
  - split_and!; [|done|done]. split; [done|tauto].
Qed.

Lemma update_srs_completes_iff_sample :
  update_srs ana 1 easy MAXORDINAL (store_with None)
  = (Raise OverflowError, store_with None).
Proof.
  edestruct (update_srs_completes_iff ana 1 easy MAXORDINAL (store_with None)
               1 0 0 9 1 0) as (_ & _ & H).
  - reflexivity.
  - reflexivity.
  - apply H. unfold within_range, MAXORDINAL. lia.
Defined.

(** X20. Answers with the three difficulties keep every review record
    an answered record: interval at least one day, counts not negative,
    at least one answer counted.  So the records of a store that
    started empty always are. *)
Theorem update_srs_keeps_answered_records (username : string) (question_id : Z)
    (difficulty : string) (today : Z) (f : DB) :
  difficulty = easy ∨ difficulty = medium ∨ difficulty = hard →
  (∀ u q p, progress f !! (u, q) = Some p → answered_record p) →
  ∀ u q p,
    progress (update_srs username question_id difficulty today f).2 !! (u, q) = Some p →
    answered_record p.
Proof.
  intros Hd Hinv u q p.
  destruct (loaded_state f username question_id) as [[i c] w] eqn:Hload.
  destruct (srs_step difficulty i c w) as [[i' c'] w'] eqn:Hstep.
  assert (1 ≤ i ∧ 0 ≤ c ∧ 0 ≤ w) as (Hi & Hc & Hw).
  { unfold loaded_state in Hload.
    destruct (progress f !! (username, question_id)) as [p0|] eqn:E.
    - injection Hload as <- <- <-.
      destruct (Hinv _ _ _ E) as (? & ? & ? & ?). done.
    - injection Hload as <- <- <-. lia. }
  destruct (update_srs_cases _ _ _ today _ _ _ _ _ _ _ Hload Hstep)
    as [[Hin ->]|[Hout ->]]; simpl; [|apply Hinv].
  destruct (decide ((username, question_id) = (u, q))) as [[= -> ->]|Hne].
  - rewrite lookup_insert_eq. intros [= <-]. unfold answered_record. simpl.
    destruct Hd as [->|[->| ->]].
    + rewrite srs_step_easy in Hstep. injection Hstep as <- <- <-. lia.
    + rewrite srs_step_medium in Hstep. injection Hstep as <- <- <-. lia.
    + rewrite srs_step_hard in Hstep. injection Hstep as <- <- <-. lia.
  - rewrite lookup_insert_ne by done. apply Hinv.
Qed.

Lemma update_srs_keeps_answered_records_sample :
  answered_record {| due_date := day_2026_11_03 + 1; interval := 1;
                     aciertos := 0; fallos := 1 |}.
Proof.
  apply (update_srs_keeps_answered_records ana 1 hard day_2026_11_03
           (store_with None)
           (or_intror (or_intror eq_refl))) with (u := ana) (q := 1).
  - intros u q p Hp. vm_compute in Hp. discriminate.
  - vm_compute. reflexivity.
Defined.



Lemma answer_times_S n username question_id difficulty today f :
  answer_times (S n) username question_id difficulty today f
  = (update_srs username question_id difficulty today
       (answer_times n username question_id difficulty today f)).2.
Proof. reflexivity. Qed.

Lemma loaded_state_after username question_id difficulty today f i c w i' c' w' :
  loaded_state f username question_id = (i, c, w) →
  srs_step difficulty i c w = (i', c', w') →
  storable today question_id i' c' w' →
  loaded_state (update_srs username question_id difficulty today f).2
    username question_id = (i', c', w').
Proof.
  intros Hload Hstep Hst.
  pose proof (persisted_update_srs_storable Hload Hstep Hst) as Hp.
  unfold persisted in Hp. unfold loaded_state. by rewrite Hp.
Qed.

(** X22. Streaks on a pair without a record, all answered on one day and
    all storable: after n easy answers the interval is 2^(n+3) - 7 with
    n correct; after n medium answers it is 1 + 3n with n correct;
    after n hard answers it is 1 with n incorrect. *)
Theorem answer_streaks (username : string) (question_id today : Z) (f : DB) (n : nat) :
  progress f !! (username, question_id) = None →
  valid_date today →
  sqlite_integer question_id →
  (today + (2 ^ (Z.of_nat n + 3) - 7) ≤ MAXORDINAL →
     loaded_state (answer_times n username question_id easy today f)
       username question_id = (2 ^ (Z.of_nat n + 3) - 7, Z.of_nat n, 0))
  ∧ (today + (1 + 3 * Z.of_nat n) ≤ MAXORDINAL →
     loaded_state (answer_times n username question_id medium today f)
       username question_id = (1 + 3 * Z.of_nat n, Z.of_nat n, 0))
  ∧ (today + 1 ≤ MAXORDINAL → Z.of_nat n < 2 ^ 63 →
     loaded_state (answer_times n username question_id hard today f)
       username question_id = (1, 0, Z.of_nat n)).
Proof.
  intros Hnone Htoday Hq.
  assert (loaded_state f username question_id = (1, 0, 0)) as H0.
  { unfold loaded_state. by rewrite Hnone. }
  split_and!.
  - induction n as [|n IH]; intros Hmax; [done|].
    assert (2 ^ (Z.of_nat (S n) + 3) = 2 * 2 ^ (Z.of_nat n + 3)) as Hpow.
    { replace (Z.of_nat (S n) + 3) with (Z.succ (Z.of_nat n + 3)) by lia.
      apply Z.pow_succ_r. lia. }
    assert (0 < 2 ^ (Z.of_nat n + 3)) as Hpos by (apply Z.pow_pos_nonneg; lia).
    assert (Z.of_nat n + 3 < 2 ^ (Z.of_nat n + 3)) as Hlin
      by (apply Z.pow_gt_lin_r; lia).
    rewrite Hpow in *. rewrite answer_times_S.
    assert (today + (2 ^ (Z.of_nat n + 3) - 7) ≤ MAXORDINAL) as Hprev
      by (unfold MAXORDINAL in *; lia).
    rewrite (loaded_state_after _ _ _ _ _ _ _ _ _ _ _ (IH Hprev) (srs_step_easy _ _ _)).
    + f_equal; [f_equal|..]; lia.
    + ranges.
  - induction n as [|n IH]; intros Hmax; [done|].
    rewrite answer_times_S.
    assert (today + (1 + 3 * Z.of_nat n) ≤ MAXORDINAL) as Hprev
      by (unfold MAXORDINAL in *; lia).
    rewrite (loaded_state_after _ _ _ _ _ _ _ _ _ _ _ (IH Hprev) (srs_step_medium _ _ _)).
    + f_equal; [f_equal|..]; lia.
    + ranges.
  - induction n as [|n IH]; intros Hmax Hn; [done|].
    rewrite answer_times_S.
    assert (Z.of_nat n < 2 ^ 63) as Hprev by lia.
    rewrite (loaded_state_after _ _ _ _ _ _ _ _ _ _ _ (IH Hmax Hprev) (srs_step_hard _ _ _)).
    + f_equal; [f_equal|..]; lia.
    + ranges.
Qed.

Lemma answer_streaks_sample :
  loaded_state (answer_times 3 ana 1 easy day_2026_11_03 (store_with None)) ana 1
  = (57, 3, 0).
Proof.
  edestruct (answer_streaks ana 1 day_2026_11_03 (store_with None) 3) as (H & _).
  - reflexivity.
  - ranges.
  - ranges.
  - apply H. vm_compute. discriminate.
Defined.

(** ** Statistics *)

(** X23. When every review record of a user belongs to a question of the
    table, the user's learned count is at most the number of
    questions, so the learning rate shown is at most 100 percent. *)
Theorem aprendidas_bounded (f : DB) (username : string) :
  (∀ q, is_Some (progress f !! (username, q)) → is_question f q) →
  (aprendidas f username ≤ total_preguntas_global f)%nat.
Proof.
  intros Hrefs. unfold aprendidas, total_preguntas_global.
  rewrite <- !length_map_to_list.
  set (m := filter (learned_row username) (progress f)).
  rewrite <- (length_fmap fst (map_to_list m)).
  rewrite <- (length_fmap snd ((map_to_list m).*1)).
  rewrite <- (length_fmap fst (map_to_list (questions f))).
  apply submseteq_length, NoDup_submseteq.
  - apply NoDup_fmap_2_strong; [|apply NoDup_fst_map_to_list].
    intros [u1 q1] [u2 q2] H1 H2 Heq. simpl in Heq. subst q2.
    apply list_elem_of_fmap in H1 as ([k1 p1] & Hk1 & H1).
    apply list_elem_of_fmap in H2 as ([k2 p2] & Hk2 & H2).
    simpl in *. subst k1 k2.
    apply elem_of_map_to_list, map_lookup_filter_Some in H1 as [_ [Hu1 _]].
    apply elem_of_map_to_list, map_lookup_filter_Some in H2 as [_ [Hu2 _]].
    simpl in *. congruence.
  - intros q Hq.
    apply list_elem_of_fmap in Hq as ([u' q'] & -> & Hq).
    apply list_elem_of_fmap in Hq as ([k p] & Hk & Hq).
    simpl in *. subst k.
    apply elem_of_map_to_list, map_lookup_filter_Some in Hq as [Hp [Hu _]].
    simpl in *. subst u'.
    destruct (Hrefs q') as [x Hx]; [by exists p|].
    apply list_elem_of_fmap. exists (q', x). split; [done|].
    by apply elem_of_map_to_list.
Qed.

Lemma aprendidas_bounded_sample :
  (aprendidas (store_with (Some {| due_date := day_2026_11_03 + 9; interval := 9;
                                   aciertos := 1; fallos := 0 |})) ana ≤ 1)%nat.
Proof.
  apply (aprendidas_bounded
           (store_with (Some {| due_date := day_2026_11_03 + 9; interval := 9;
                                aciertos := 1; fallos := 0 |})) ana).
  intros q [x Hx]. unfold store_with in Hx. simpl in Hx.
  apply lookup_singleton_Some in Hx as [[= <-] _].
  exists sample_question. reflexivity.
Defined.

Lemma learned_row_lookup (f : DB) (username : string) (q : Z) :
  is_Some (filter (learned_row username) (progress f) !! (username, q))
  ↔ learned f username q.
Proof.
  unfold learned. split.
  - intros [p Hp]. apply map_lookup_filter_Some in Hp as [Hp [_ Hl]]. by exists p.
  - intros (p & Hp & Hl). exists p. apply map_lookup_filter_Some. by split.
Qed.

(** X24. How a completed answer moves the ranking: the learned count of
    the answering user changes by exactly the status of the answered
    pair (learned means interval above 7 days), and nobody else's count
    changes.  From an interval of at least one day an easy answer always
    leaves the pair learned and a hard answer never does. *)
Theorem aprendidas_after_answer (username : string) (question_id : Z)
    (difficulty : string) (today : Z) (f : DB) (i c w : Z) :
  loaded_state f username question_id = (i, c, w) →
  (update_srs username question_id difficulty today f).1 = Return None →
  let f' := (update_srs username question_id difficulty today f).2 in
  (aprendidas f' username + one_if (learned f username question_id)
   = aprendidas f username + one_if (learned f' username question_id))%nat
  ∧ (∀ u, u ≠ username → aprendidas f' u = aprendidas f u)
  ∧ (learned f' username question_id ↔ 7 < (srs_step difficulty i c w).1.1)
  ∧ (1 ≤ i → difficulty = easy → learned f' username question_id)
  ∧ (difficulty = hard → ¬ learned f' username question_id).
Proof.
  intros Hload Hret f'. subst f'.
  destruct (srs_step difficulty i c w) as [[i' c'] w'] eqn:Hstep.
  change ((i', c', w').1.1) with i'.
  destruct (update_srs_cases _ _ _ today _ _ _ _ _ _ _ Hload Hstep)
    as [[Hin Heq]|[Hout Heq]]; rewrite Heq in Hret |- *; [|done].
  repeat match goal with
         | |- context [(?o, ?g).2] => change ((o, g).2) with g
         end.
  set (p' := {| due_date := today + i'; interval := i'; aciertos := c'; fallos := w' |}).
  set (f' := {| users := users f; questions := questions f;
                progress := <[(username, question_id) := p']> (progress f) |}).
  assert (learned f' username question_id ↔ 7 < i') as Hl'.
  { unfold learned, f'. simpl. rewrite lookup_insert_eq. split.
    - by intros (p & [= <-] & Hlt).
    - intros Hlt. by exists p'. }
  split_and!.
  - unfold aprendidas, f'. simpl. rewrite map_filter_insert.
    pose proof (learned_row_lookup f username question_id) as Hrow.
    unfold one_if.
    destruct (decide (learned_row username (username, question_id, p'))) as [Hp|Hp].
    + rewrite (decide_True (P := learned f' username question_id)).
      2:{ apply Hl'. by destruct Hp. }
      rewrite map_size_insert.
      destruct (decide (learned f username question_id)) as [Hw|Hw].
      * apply Hrow in Hw as [x ->]. simpl. lia.
      * destruct (filter _ (progress f) !! (username, question_id)) eqn:E; [|simpl; lia].
        exfalso. apply Hw, Hrow. by eexists.
    + rewrite (decide_False (P := learned f' username question_id)).
      2:{ intros Hw. apply Hp. split; [done|]. by apply Hl'. }
      rewrite map_filter_delete, map_size_delete.
      destruct (decide (learned f username question_id)) as [Hw|Hw].
      * pose proof Hw as Hw'. apply Hrow in Hw' as [x Hx]. rewrite Hx. simpl.
        assert (size (filter (learned_row username) (progress f)) ≠ 0%nat).
        { intros Hz. apply map_size_empty_iff in Hz. rewrite Hz in Hx.
          by rewrite lookup_empty in Hx. }
        lia.
      * destruct (filter _ (progress f) !! (username, question_id)) eqn:E; [|simpl; lia].
        exfalso. apply Hw, Hrow. by eexists.
  - intros u Hu. unfold aprendidas, f'. simpl.
    rewrite map_filter_insert_not; [done|].
    intros y [Hy _]. simpl in Hy. congruence.
  - done.
  - intros Hi ->. apply Hl'.
    rewrite srs_step_easy in Hstep. injection Hstep as <- <- <-. lia.
  - intros -> Hw. apply Hl' in Hw.
    rewrite srs_step_hard in Hstep. injection Hstep as <- <- <-. lia.
Qed.

Lemma aprendidas_after_answer_sample :
  learned (update_srs ana 1 easy day_2026_11_03 (store_with None)).2 ana 1.
Proof.
  edestruct (aprendidas_after_answer ana 1 easy day_2026_11_03 (store_with None) 1 0 0)
    as (_ & _ & _ & H & _).
  - reflexivity.
  - vm_compute. reflexivity.
  - apply H; [lia|reflexivity].
Defined.

(** ** The evaluation page *)

Lemma scheduler_keeps_file username practice_mode today random f :
  (get_next_question_for_user username practice_mode today random f).2 = f.
Proof.
  unfold get_next_question_for_user.
  destruct practice_mode; [done|].
  by destruct (order_by_random_limit_1 random (select_due _ _ _)).
Qed.

Lemma difficulty_button_cases current_user pregunta difficulty today ss f :
  (update_srs current_user (pregunta_id pregunta) difficulty today f).1 = Return None
  ∧ difficulty_button current_user pregunta difficulty today ss f
    = (Rerun, reset_evaluation_state ss,
       (update_srs current_user (pregunta_id pregunta) difficulty today f).2)
  ∨ (∃ e, (update_srs current_user (pregunta_id pregunta) difficulty today f)
          = (Raise e, f))
    ∧ difficulty_button current_user pregunta difficulty today ss f = (PageRaised, ss, f).
Proof.
  unfold difficulty_button.
  destruct (update_srs current_user (pregunta_id pregunta) difficulty today f)
    as [[o|e] f'] eqn:E.
  - left. split; [|done]. simpl.
    rewrite update_srs_unfold in E.
    destruct (loaded_state _ _ _) as [[i c] w].
    destruct (srs_step _ _ _ _) as [[i' c'] w'].
    destruct (_ ≫= _); by simplify_eq.
  - right. pose proof (update_srs_raise_keeps_file _ _ _ _ _ _ _ E) as ->.
    split; [by exists e|done].
Qed.

Lemma get_next_question_for_user_pair username practice_mode today random f :
  get_next_question_for_user username practice_mode today random f
  = ((get_next_question_for_user username practice_mode today random f).1, f).
Proof.
  rewrite <- (scheduler_keeps_file username practice_mode today random f) at 3.
  by destruct (get_next_question_for_user username practice_mode today random f).
Qed.

(** X25. One run of the evaluation page writes to the store only through
    [update_srs], only from the feedback view with a difficulty button
    clicked, only for the logged-in user and the question on display,
    and only with the literal of that button: one of the three.
    Otherwise the store is left as it was. *)
Theorem show_evaluation_page_writes (event : widget_event) (current_user : string)
    (today : Z) (random : nat → Z) (ss : SessionState) (f : DB) :
  let r := show_evaluation_page event current_user today random ss f in
  r.2 = f
  ∨ ∃ pregunta difficulty,
      eval_state ss = Some "showing_feedback"
      ∧ current_question_data ss = Some pregunta
      ∧ button_difficulty event = Some difficulty
      ∧ (difficulty = easy ∨ difficulty = medium ∨ difficulty = hard)
      ∧ r = (Rerun, reset_evaluation_state ss,
             (update_srs current_user (pregunta_id pregunta) difficulty today f).2).
Proof.
  intros r. subst r. unfold show_evaluation_page.
  rewrite (get_next_question_for_user_pair current_user false today random f).
  generalize ((get_next_question_for_user current_user false today random f).1).
  intros o1.
  assert (∀ ss0 : SessionState,
    (match current_question_id ss0 with
     | None => (o1, {| eval_state := eval_state ss0; current_question_id := o1;
                       user_answer := user_answer ss0;
                       current_question_data := current_question_data ss0 |}, f)
     | Some id => (Some id, ss0, f)
     end).2 = f) as Hsame.
  { intros ss0. by destruct (current_question_id ss0). }
  destruct (eval_state ss) as [st|] eqn:Est; cbn [eval_state].
  - rewrite ?Est.
    destruct (decide (Some st = Some "showing_question")) as [Hq|Hq].
    + left.
      destruct (current_question_id ss) as [id|]; [|destruct o1 as [id|]].
      * destruct (questions f !! id); [|done]. by destruct event.
      * destruct (questions f !! id); [|done]. by destruct event.
      * destruct event; try done.
        rewrite (get_next_question_for_user_pair current_user true today random f).
        by destruct (truthy_id _).
    + destruct (decide (Some st = Some "showing_feedback")) as [Hfb|Hfb]; [|by left].
      destruct (current_question_data ss) as [pregunta|]; [|by left].
      destruct (user_answer ss) as [respuesta|]; [|by left].
      destruct event; try (by left).
      * destruct (difficulty_button_cases current_user pregunta hard today ss f)
          as [[_ ->]|[_ ->]]; [|by left].
        right. exists pregunta, hard. split_and!; try done. tauto.
      * destruct (difficulty_button_cases current_user pregunta medium today ss f)
          as [[_ ->]|[_ ->]]; [|by left].
        right. exists pregunta, medium. split_and!; try done. tauto.
      * destruct (difficulty_button_cases current_user pregunta easy today ss f)
          as [[_ ->]|[_ ->]]; [|by left].
        right. exists pregunta, easy. split_and!; try done. tauto.
  - left. rewrite decide_True by done.
    cbn [eval_state current_question_id user_answer current_question_data].
    destruct (current_question_id ss) as [id|]; [|destruct o1 as [id|]].
    + destruct (questions f !! id); [|done]. by destruct event.
    + destruct (questions f !! id); [|done]. by destruct event.
    + destruct event; try done.
      rewrite (get_next_question_for_user_pair current_user true today random f).
      by destruct (truthy_id _).
Qed.

Lemma show_evaluation_page_offers event current_user today random ss f q row :
  eval_state ss = None ∨ eval_state ss = Some "showing_question" →
  current_question_id ss = None ∨ current_question_id ss = Some q →
  (get_next_question_for_user current_user false today random f).1 = Some q →
  questions f !! q = Some row →
  show_evaluation_page event current_user today random ss f
  = let pregunta := {| pregunta_id := q; pregunta_row := row;
                       pregunta_opciones := split bar (opciones row) |} in
    match event with
    | AnswerSubmitted respuesta_usuario =>
        (Rerun,
         {| eval_state := Some "showing_feedback";
            current_question_id := Some q;
            user_answer := Some (Some respuesta_usuario);
            current_question_data := Some pregunta |}, f)
    | _ =>
        (QuestionShown pregunta,
         {| eval_state := Some "showing_question";
            current_question_id := Some q;
            user_answer := user_answer ss;
            current_question_data := Some pregunta |}, f)
    end.
Proof.
  intros Hst Hcur Hnext Hrow. unfold show_evaluation_page.
  rewrite (get_next_question_for_user_pair current_user false), Hnext.
  destruct Hst as [Hst|Hst]; destruct Hcur as [Hcur|Hcur];
    rewrite Hst; simpl; rewrite ?Hst, ?Hcur; simpl;
    rewrite ?Hst, ?Hcur, Hrow; simpl; rewrite ?Hst, ?Hcur; by destruct event.
Qed.

(** X26. The answer cycle.  When the scheduler offers question q to a
    user who opens the page, the first run shows q, submitting any
    answer leads to the feedback view without touching the store, and
    a difficulty button then stores exactly what [update_srs] stores
    for that button's literal and clears the session for the next
    question.  The answer given, right or wrong, has no part in what is
    stored. *)
Theorem answer_cycle (current_user : string) (today1 today2 today3 : Z)
    (random1 random2 random3 : nat → Z) (f : DB) (q : Z)
    (respuesta : string) (event : widget_event) (difficulty : string) :
  (get_next_question_for_user current_user false today1 random1 f).1 = Some q →
  button_difficulty event = Some difficulty →
  (update_srs current_user q difficulty today3 f).1 = Return None →
  let r1 := show_evaluation_page NoEvent current_user today1 random1 fresh_session f in
  let r2 := show_evaluation_page (AnswerSubmitted respuesta) current_user today2
              random2 r1.1.2 r1.2 in
  let r3 := show_evaluation_page event current_user today3 random3 r2.1.2 r2.2 in
  (∃ p, r1.1.1 = QuestionShown p ∧ pregunta_id p = q)
  ∧ r2.1.1 = Rerun ∧ eval_state r2.1.2 = Some "showing_feedback" ∧ r2.2 = f
  ∧ r3 = (Rerun, reset_evaluation_state r2.1.2,
          (update_srs current_user q difficulty today3 f).2).
Proof.
  intros Hnext Hbutton Hret r1 r2 r3.
  pose proof Hnext as Hq. apply scheduler_result_cases in Hq as [[row Hrow] _].
  assert (r1 = (QuestionShown {| pregunta_id := q; pregunta_row := row;
                                 pregunta_opciones := split bar (opciones row) |},
                {| eval_state := Some "showing_question";
                   current_question_id := Some q;
                   user_answer := None;
                   current_question_data :=
                     Some {| pregunta_id := q; pregunta_row := row;
                             pregunta_opciones := split bar (opciones row) |} |}, f))
    as Hr1.
  { subst r1.
    rewrite (show_evaluation_page_offers NoEvent current_user today1 random1
               fresh_session f q row); try done; by left. }
  assert (r2 = (Rerun,
                {| eval_state := Some "showing_feedback";
                   current_question_id := Some q;
                   user_answer := Some (Some respuesta);
                   current_question_data :=
                     Some {| pregunta_id := q; pregunta_row := row;
                             pregunta_opciones := split bar (opciones row) |} |}, f))
    as Hr2.
  { subst r2. rewrite Hr1. simpl. unfold show_evaluation_page. simpl.
    by rewrite Hrow. }
  split_and!.
  - rewrite Hr1. by eexists.
  - by rewrite Hr2.
  - by rewrite Hr2.
  - by rewrite Hr2.
  - subst r3. rewrite Hr2. cbn [fst snd]. unfold show_evaluation_page.
    cbn [eval_state current_question_data user_answer].
    rewrite decide_False by discriminate. rewrite decide_True by done.
    set (p := {| pregunta_id := q; pregunta_row := row;
                 pregunta_opciones := split bar (opciones row) |}).
    destruct (difficulty_button_cases current_user p difficulty today3
                {| eval_state := Some "showing_feedback";
                   current_question_id := Some q;
                   user_answer := Some (Some respuesta);
                   current_question_data := Some p |} f)
      as [[_ Hb]|[[e He] _]].
    + destruct event; simplify_eq/=; exact Hb.
    + simpl in He. rewrite He in Hret. discriminate.
Qed.

Lemma answer_cycle_sample :
  (show_evaluation_page FacilClicked ana day_2026_11_03 (favour 0)
     (show_evaluation_page (AnswerSubmitted "B") ana day_2026_11_03 (favour 0)
        (show_evaluation_page NoEvent ana day_2026_11_03 (favour 0)
           fresh_session (store_with None)).1.2
        (store_with None)).1.2
     (store_with None)).2
  = (update_srs ana 1 easy day_2026_11_03 (store_with None)).2.
Proof.
  edestruct (answer_cycle ana day_2026_11_03 day_2026_11_03 day_2026_11_03
               (favour 0) (favour 0) (favour 0) (store_with None) 1 "B"
               FacilClicked easy) as (_ & _ & _ & _ & H).
  - vm_compute. reflexivity.
  - reflexivity.
  - vm_compute. reflexivity.
  - vm_compute in H. vm_compute. congruence.
Defined.

(** X27. A question that disappeared while it was on display (deleted by
    its owner or the administrator) does not break the page: the run
    clears the session and reruns without touching the store, and the
    following run asks the scheduler for another question. *)
Theorem show_evaluation_page_question_gone (event : widget_event)
    (current_user : string) (today : Z) (random : nat → Z)
    (ss : SessionState) (f : DB) (id : Z) :
  eval_state ss = None ∨ eval_state ss = Some "showing_question" →
  current_question_id ss = Some id →
  questions f !! id = None →
  show_evaluation_page event current_user today random ss f
  = (Rerun, reset_evaluation_state ss, f)
  ∧ ∀ today' random',
      current_question_id
        (show_evaluation_page NoEvent current_user today' random'
           (reset_evaluation_state ss) f).1.2
      = (get_next_question_for_user current_user false today' random' f).1.
Proof.
  intros Hst Hcur Hgone. split.
  - unfold show_evaluation_page.
    destruct Hst as [Hst|Hst]; rewrite Hst; simpl; rewrite ?Hst, ?Hcur; simpl;
      rewrite ?Hst, ?Hcur, Hgone; done.
  - intros today' random'.
    destruct (get_next_question_for_user current_user false today' random' f).1
      as [q|] eqn:Hnext.
    + pose proof Hnext as Hq. apply scheduler_result_cases in Hq as [[row Hrow] _].
      by rewrite (show_evaluation_page_offers NoEvent current_user today' random'
                    (reset_evaluation_state ss) f q row
                    (or_intror eq_refl) (or_introl eq_refl) Hnext Hrow).
    + unfold show_evaluation_page.
      rewrite (get_next_question_for_user_pair current_user false today' random' f),
        Hnext.
      done.
Qed.

Lemma show_evaluation_page_question_gone_sample :
  show_evaluation_page NoEvent ana day_2026_11_03 (favour 0)
    {| eval_state := Some "showing_question"; current_question_id := Some 7;
       user_answer := Some None; current_question_data := None |}
    (store_with None)
  = (Rerun,
     reset_evaluation_state
       {| eval_state := Some "showing_question"; current_question_id := Some 7;
          user_answer := Some None; current_question_data := None |},
     store_with None).
Proof.
  apply (show_evaluation_page_question_gone NoEvent ana day_2026_11_03 (favour 0)
           {| eval_state := Some "showing_question"; current_question_id := Some 7;
              user_answer := Some None; current_question_data := None |}
           (store_with None) 7).
  - by right.
  - reflexivity.
  - reflexivity.
Defined.

Lemma show_evaluation_page_caught_up event current_user today random ss f :
  eval_state ss = None ∨ eval_state ss = Some "showing_question" →
  current_question_id ss = None →
  (get_next_question_for_user current_user false today random f).1 = None →
  show_evaluation_page event current_user today random ss f
  = let ss' := {| eval_state := Some "showing_question";
                  current_question_id := None;
                  user_answer := user_answer ss;
                  current_question_data := current_question_data ss |} in
    let practice_q_id :=
      (get_next_question_for_user current_user true today random f).1 in
    match event with
    | PracticeClicked =>
        if truthy_id practice_q_id then
          (Rerun,
           {| eval_state := Some "showing_question";
              current_question_id := practice_q_id;
              user_answer := user_answer ss;
              current_question_data := current_question_data ss |}, f)
        else (AllCaughtUp true, ss', f)
    | _ => (AllCaughtUp false, ss', f)
    end.
Proof.
  intros Hst Hcur Hnone. unfold show_evaluation_page.
  rewrite (get_next_question_for_user_pair current_user false today random f), Hnone.
  destruct Hst as [Hst|Hst]; rewrite Hst;
    cbn [eval_state current_question_id user_answer current_question_data];
    rewrite ?Hst, ?Hcur; rewrite decide_True by done;
    cbn [eval_state current_question_id user_answer current_question_data];
    rewrite ?Hst, ?Hcur;
    rewrite (get_next_question_for_user_pair current_user true today random f);
    destruct event; try done;
    by destruct (truthy_id _).
Qed.

(** X28. Practice as the way on: for a user with nothing due and nothing
    unseen, the practice button takes a question of the table (any id
    other than 0) as the question in progress without touching the
    store, and the next run shows it although it is not due; with an
    empty table the page reports that there is nothing to practise. *)
Theorem practice_button (current_user : string) (today : Z) (random : nat → Z)
    (ss : SessionState) (f : DB) :
  eval_state ss = None ∨ eval_state ss = Some "showing_question" →
  current_question_id ss = None →
  (get_next_question_for_user current_user false today random f).1 = None →
  let r := show_evaluation_page PracticeClicked current_user today random ss f in
  r.2 = f
  ∧ (questions f = ∅ → r.1.1 = AllCaughtUp true)
  ∧ (questions f ≠ ∅ → ¬ is_question f 0 →
     ∃ q, is_question f q
          ∧ r.1.1 = Rerun
          ∧ current_question_id r.1.2 = Some q
          ∧ ∀ today' random',
              ∃ p, (show_evaluation_page NoEvent current_user today' random' r.1.2 f).1.1
                   = QuestionShown p
                   ∧ pregunta_id p = q).
Proof.
  intros Hst Hcur Hnone r. subst r.
  rewrite (show_evaluation_page_caught_up PracticeClicked _ _ _ _ _ Hst Hcur Hnone).
  cbv zeta.
  destruct (get_next_question_for_user current_user true today random f).1
    as [q|] eqn:Hprac.
  - pose proof Hprac as Hq. apply scheduler_result_cases in Hq as [Hq _].
    assert (questions f ≠ ∅) as Hne.
    { intros He. destruct Hq as [x Hx]. by rewrite He, lookup_empty in Hx. }
    destruct (decide (q = 0)) as [->|Hq0].
    + unfold truthy_id. rewrite bool_decide_eq_false_2 by (intros H; by apply H).
      split_and!; try done.
    + unfold truthy_id. rewrite bool_decide_eq_true_2 by done.
      split_and!; try done.
      intros _ _. exists q. split_and!; try done.
      intros today' random'. destruct Hq as [row Hrow].
      unfold show_evaluation_page. cbn [fst snd eval_state current_question_id].
      rewrite decide_True by done.
      cbn [eval_state current_question_id user_answer current_question_data].
      rewrite Hrow. by eexists.
  - assert (questions f = ∅) as He.
    { rewrite get_next_question_for_user_practice in Hprac.
      by apply order_by_random_limit_1_None, select_question_ids_nil in Hprac. }
    unfold truthy_id. split_and!; done.
Qed.

Lemma practice_button_sample :
  (show_evaluation_page PracticeClicked ana day_2026_11_03 (favour 0) fresh_session
     (store_with (Some {| due_date := day_2026_11_03 + 9; interval := 9;
                          aciertos := 1; fallos := 0 |}))).2
  = store_with (Some {| due_date := day_2026_11_03 + 9; interval := 9;
                        aciertos := 1; fallos := 0 |}).
Proof.
  apply (practice_button ana day_2026_11_03 (favour 0) fresh_session
           (store_with (Some {| due_date := day_2026_11_03 + 9; interval := 9;
                                aciertos := 1; fallos := 0 |}))).
  - by left.
  - reflexivity.
  - vm_compute. reflexivity.
Defined.
